(** * registers-cli: the [patch] command group

    A shallow embedding of [registers/commands/patch.py] and of the engine
    it drives (log codec, schema, tabular deserialiser, register replay,
    patch builder, validator).

    The Python functions [create], [apply], [_apply], [create_command] and
    [apply_command] are embedded in a small state-and-exception monad over
    a process [world]: the file system, the terminal and the trace of the
    calls made.  The engine modules that [patch.py] imports ([rsf], [xsv],
    [Register], [Patch], [utils], [core], [exceptions]) are reached through
    the [Engine] interface, so that what is proved of [patch.py] holds for
    every engine; [Registers] gives the interface one executable
    instance. *)

From Stdlib Require Import String Ascii List ZArith Bool Lia.
From stdpp Require Import base option list strings gmap pretty.

Local Open Scope string_scope.
Local Open Scope list_scope.

Definition TAB : ascii := "009"%char.
Definition LF : ascii := "010"%char.
Definition nl : string := String LF "".

(** ** Errors *)

(** Modelled from the spec: the [exceptions] module ([RegistersException]
    and its kinds), which is not part of the sources at hand.  The kinds are
    the error taxonomy of the design: format, schema readiness, tabular
    coercion and replay integrity. *)
Inductive reason : Type :=
  | SchemaNotReady
  | DuplicateItem (hash : string)
  | OutOfOrder (key : string)
  | TypeMismatch (field raw expected : string)
  | MissingPrimaryKey
  | UnresolvedItem (hash : string)
  | Malformed (what : string).

Inductive row_error : Type :=
  | RowError (row : nat) (msg : string)
  | TypeError (row : nat) (field raw expected : string).

Inductive RegistersException : Type :=
  | FormatError (msg : string)
  | SchemaNotReadyError
  | RowErrors (errs : list row_error)
  | ReplayError (position : nat) (why : reason).

(** What a Python call can raise here: an exception of the package, the
    [FileNotFoundError] of [open], or the [TypeError] of a subscript on a
    value that takes none. *)
Inductive exn : Type :=
  | Registers (e : RegistersException)
  | FileNotFoundError (path : string)
  | BuiltinTypeError (msg : string).

Inductive res (A : Type) : Type :=
  | Ok (a : A)
  | Err (e : RegistersException).
Arguments Ok {A} a.
Arguments Err {A} e.

(** ** The process: files, terminal, calls *)

Inductive mode : Type := ModeRead | ModeAppend.

(** One event per call that [patch.py] makes to a collaborator or to the
    operating system, in the order of the calls. *)
Inductive event : Type :=
  | EvRsfRead (path : string)
  | EvRegister
  | EvCheckReadiness
  | EvOpen (path : string) (m : mode)
  | EvDeserialise
  | EvPatch
  | EvRegisterApply
  | EvWritelines (path : string)
  | EvExit (code : Z).

Record echoed : Type := Echoed { text : string; fg : option string }.

(** A point in time, as a Python [datetime] holds it. *)
Record datetime : Type := Datetime {
  year : nat;
  month : nat;
  day : nat;
  hour : nat;
  minute : nat;
  second : nat
}.

Record world : Type := World {
  fs : gmap string string;
  stdout : list echoed;
  trace : list event;
  clock : datetime
}.

Inductive outcome (A : Type) : Type :=
  | Return (a : A)
  | Raise (e : exn)
  | Exit (code : Z).
Arguments Return {A} a.
Arguments Raise {A} e.
Arguments Exit {A} code.

Definition M (A : Type) : Type := world -> outcome A * world.

Definition ret {A} (a : A) : M A := fun w => (Return a, w).

Definition bind {A B} (m : M A) (k : A -> M B) : M B :=
  fun w =>
    match m w with
    | (Return a, w') => k a w'
    | (Raise e, w') => (Raise e, w')
    | (Exit c, w') => (Exit c, w')
    end.

Declare Scope py_scope.
Delimit Scope py_scope with py.
Notation "x <- m ;; k" := (bind m (fun x => k))
  (at level 100, m at next level, right associativity) : py_scope.
Notation "m ;;; k" := (bind m (fun _ => k))
  (at level 100, right associativity) : py_scope.
Local Open Scope py_scope.

Definition raise {A} (e : exn) : M A := fun w => (Raise e, w).

Definition emit (ev : event) : M unit :=
  fun w => (Return tt, World (fs w) (stdout w) (trace w ++ [ev]) (clock w)).

(** [exit(code)]: the process stops, whatever the callers' handlers. *)
Definition exit {A} (code : Z) : M A :=
  fun w =>
    (Exit code, World (fs w) (stdout w) (trace w ++ [EvExit code]) (clock w)).

Definition lift {A} (r : res A) : M A :=
  match r with
  | Ok a => ret a
  | Err e => raise (Registers e)
  end.

(** [click.echo] and [click.secho]: one line on the terminal. *)
Definition secho (s : string) (colour : option string) : M unit :=
  fun w =>
    (Return tt, World (fs w) (stdout w ++ [Echoed s colour]) (trace w) (clock w)).

Definition echo (s : string) : M unit := secho s None.

(** [for x in xs: body x] *)
Fixpoint for_each {A} (xs : list A) (body : A -> M unit) : M unit :=
  match xs with
  | [] => ret tt
  | x :: xs' => body x ;;; for_each xs' body
  end.

(** [try: m  except RegistersException as err: h err] *)
Definition try_except {A} (m : M A) (h : RegistersException -> M A) : M A :=
  fun w =>
    match m w with
    | (Raise (Registers e), w') => h e w'
    | r => r
    end.

(** [datetime.utcnow()] *)
Definition utcnow : M datetime := fun w => (Return (clock w), w).

(** [open(path, "r")] followed by reading the handle to its end. *)
Definition open_read (path : string) : M string :=
  emit (EvOpen path ModeRead) ;;;
  fun w =>
    match fs w !! path with
    | Some content => (Return content, w)
    | None => (Raise (FileNotFoundError path), w)
    end.

(** [with open(path, "a") as handle: handle.writelines(lines)]: the file is
    created when missing, and every write lands after its last byte. *)
Definition append_lines (path : string) (lines : list string) : M unit :=
  emit (EvOpen path ModeAppend) ;;;
  emit (EvWritelines path) ;;;
  fun w =>
    let old := default "" (fs w !! path) in
    (Return tt,
     World (<[path := old +:+ String.concat "" lines]> (fs w)) (stdout w)
       (trace w) (clock w)).

(** ** The engine interface *)

(** What [patch.py] imports from the rest of the package.  [rsf.read] is
    given a path: it opens the file for reading and parses its text, which
    [rsf_parse] stands for. *)
Class Engine : Type := {
  Command : Type;
  Register : Type;
  Schema : Type;
  Blob : Type;
  Patch : Type;
  ValidationError : Type;
  cmd_str : Command -> string;
  err_str : ValidationError -> string;
  exn_str : RegistersException -> string;
  rsf_parse : string -> res (list Command);
  Register_init : list Command -> res Register;
  check_readiness : Register -> res unit;
  Register_schema : Register -> Schema;
  xsv_deserialise : string -> Schema -> res (list Blob);
  Patch_init : Schema -> list Blob + list Command -> option string -> res Patch;
  Patch_commands : Patch -> list Command;
  Register_apply : Register -> Patch -> res (list ValidationError * Register)
}.

(** ** [patch.py] *)

Section Commands.
Context {E : Engine}.

(** What [create] returns: the summary of [_apply], or [patch.commands]. *)
Inductive result : Type :=
  | Summary (added_commands_number : nat)
  | Commands (cmds : list Command).

Definition rsf_read (path : string) : M (list Command) :=
  emit (EvRsfRead path) ;;;
  fun w =>
    match fs w !! path with
    | Some content => lift (rsf_parse content) w
    | None => (Raise (FileNotFoundError path), w)
    end.

(** [_apply(patch, rsf_file)] *)
Definition _apply (patch : Patch) (rsf_file : string) : M result :=
  append_lines rsf_file
    (map (fun cmd => cmd_str cmd +:+ nl) (Patch_commands patch)) ;;;
  ret (Summary (length (Patch_commands patch))).

(** [if errors: for err in errors: click.secho(str(err), fg="bright_red");
    exit(1)] *)
Definition report (errors : list ValidationError) : M unit :=
  match errors with
  | [] => ret tt
  | _ =>
      for_each errors (fun err => secho (err_str err) (Some "bright_red")) ;;;
      exit 1
  end.

(** [create(xsv_file, rsf_file, timestamp, apply_flag=False)] *)
Definition create (xsv_file rsf_file timestamp : string) (apply_flag : bool)
  : M result :=
  cmds <- rsf_read rsf_file ;;
  emit EvRegister ;;;
  register <- lift (Register_init cmds) ;;
  emit EvCheckReadiness ;;;
  lift (check_readiness register) ;;;
  let schema := Register_schema register in
  handle <- open_read xsv_file ;;
  emit EvDeserialise ;;;
  blobs <- lift (xsv_deserialise handle schema) ;;
  emit EvPatch ;;;
  patch <- lift (Patch_init schema (inl blobs) (Some timestamp)) ;;
  emit EvRegisterApply ;;;
  applied <- lift (Register_apply register patch) ;;
  let errors := fst applied in
  report errors ;;;
  if apply_flag then _apply patch rsf_file
  else ret (Commands (Patch_commands patch)).

(** [apply(patch_file, rsf_file)] *)
Definition apply (patch_file rsf_file : string) : M result :=
  cmds <- rsf_read rsf_file ;;
  emit EvRegister ;;;
  register <- lift (Register_init cmds) ;;
  emit EvCheckReadiness ;;;
  lift (check_readiness register) ;;;
  let schema := Register_schema register in
  patch_cmds <- rsf_read patch_file ;;
  emit EvPatch ;;;
  patch <- lift (Patch_init schema (inr patch_cmds) None) ;;
  emit EvRegisterApply ;;;
  applied <- lift (Register_apply register patch) ;;
  let errors := fst applied in
  report errors ;;;
  _apply patch rsf_file.

(** Modelled from the spec: [utils.success] and [utils.error], which are
    not part of the sources at hand.  On success the message is shown; on
    an error the message is shown and the process leaves with a status
    other than zero. *)
Definition utils_success (msg : string) : M unit := secho msg (Some "green").

Definition utils_error (msg : string) : M unit :=
  secho msg (Some "bright_red") ;;; exit 1.

Definition appended_msg (number : nat) (rsf_file : string) : string :=
  "Appended " +:+ pretty number +:+ " changes to " +:+ rsf_file.

(** [result['added_commands_number']] *)
Definition added_commands_number (r : result) : M nat :=
  match r with
  | Summary number => ret number
  | Commands _ => raise (BuiltinTypeError "list indices must be integers")
  end.

(** [for obj in result: click.echo(obj)]; a dict gives its keys. *)
Definition echo_all (r : result) : M unit :=
  match r with
  | Commands cmds => for_each cmds (fun obj => echo (cmd_str obj))
  | Summary _ => echo "added_commands_number"
  end.

(** [create_command(xsv_file, rsf_file, timestamp, apply_flag)] *)
Definition create_command
  (xsv_file rsf_file timestamp : string) (apply_flag : bool) : M unit :=
  try_except
    (result <- create xsv_file rsf_file timestamp apply_flag ;;
     if apply_flag then
       number <- added_commands_number result ;;
       utils_success (appended_msg number rsf_file)
     else echo_all result)
    (fun err => utils_error (exn_str err)).

(** [apply_command(patch_file, rsf_file)] *)
Definition apply_command (patch_file rsf_file : string) : M unit :=
  try_except
    (result <- apply patch_file rsf_file ;;
     number <- added_commands_number result ;;
     utils_success (appended_msg number rsf_file))
    (fun err => utils_error (exn_str err)).

(** *** What a call works on *)

Definition ok {A} (r : res A) : option A :=
  match r with
  | Ok a => Some a
  | Err _ => None
  end.

(** The register and the patch that [create] hands to [register.apply],
    when it gets that far. *)
Definition create_inputs (xsv_file rsf_file timestamp : string) (w : world)
  : option (Register * Patch) :=
  log ← fs w !! rsf_file;
  cmds ← ok (rsf_parse log);
  register ← ok (Register_init cmds);
  _ ← ok (check_readiness register);
  handle ← fs w !! xsv_file;
  blobs ← ok (xsv_deserialise handle (Register_schema register));
  patch ← ok (Patch_init (Register_schema register) (inl blobs)
                (Some timestamp));
  Some (register, patch).

(** The same for [apply]. *)
Definition apply_inputs (patch_file rsf_file : string) (w : world)
  : option (Register * Patch) :=
  log ← fs w !! rsf_file;
  cmds ← ok (rsf_parse log);
  register ← ok (Register_init cmds);
  _ ← ok (check_readiness register);
  text ← fs w !! patch_file;
  patch_cmds ← ok (rsf_parse text);
  patch ← ok (Patch_init (Register_schema register) (inr patch_cmds) None);
  Some (register, patch).

(** The register that [Register(rsf.read(rsf_file))] builds, when it
    does. *)
Definition register_of (rsf_file : string) (w : world) : option Register :=
  log ← fs w !! rsf_file;
  cmds ← ok (rsf_parse log);
  ok (Register_init cmds).

(** The errors of [register.apply(patch)], when it returns. *)
Definition errors_of (register : Register) (patch : Patch)
  : option (list ValidationError) :=
  fst <$> ok (Register_apply register patch).

(** The line [click.secho(str(err), fg="bright_red")] shows. *)
Definition red (err : ValidationError) : echoed :=
  Echoed (err_str err) (Some "bright_red").

(** The text that [_apply] writes: every command and a newline. *)
Definition patch_text (patch : Patch) : string :=
  String.concat "" (map (fun cmd => cmd_str cmd +:+ nl) (Patch_commands patch)).

(** The log once [_apply] has run. *)
Definition committed (patch : Patch) (rsf_file : string)
  (files : gmap string string) : gmap string string :=
  <[rsf_file := default "" (files !! rsf_file) +:+ patch_text patch]> files.

(** The calls up to the readiness check, and the calls of [create] and of
    [apply] from their first to [register.apply]. *)
Definition load_events (rsf_file : string) : list event :=
  [EvRsfRead rsf_file; EvRegister; EvCheckReadiness].

Definition create_events (xsv_file rsf_file : string) : list event :=
  load_events rsf_file
  ++ [EvOpen xsv_file ModeRead; EvDeserialise; EvPatch; EvRegisterApply].

Definition apply_events (patch_file rsf_file : string) : list event :=
  load_events rsf_file ++ [EvRsfRead patch_file; EvPatch; EvRegisterApply].

Definition commit_events (rsf_file : string) : list event :=
  [EvOpen rsf_file ModeAppend; EvWritelines rsf_file].

End Commands.

(** An event of the commit: the log opened for appending, or written. *)
Definition commits (ev : event) : bool :=
  match ev with
  | EvOpen _ ModeAppend | EvWritelines _ => true
  | _ => false
  end.




(** ** The engine *)

Module Registers.

(** *** Text *)

Fixpoint occurs (c : ascii) (s : string) : bool :=
  match s with
  | EmptyString => false
  | String a s' => if Ascii.eqb a c then true else occurs c s'
  end.

(** [s.split(sep)]: the pieces between the separators, empty ones kept. *)
Fixpoint split (sep : ascii) (s : string) : list string :=
  match s with
  | EmptyString => [EmptyString]
  | String a s' =>
      if Ascii.eqb a sep then EmptyString :: split sep s'
      else match split sep s' with
           | [] => [String a EmptyString]
           | piece :: pieces => String a piece :: pieces
           end
  end.

(** [sep.join(pieces)] *)
Fixpoint join (sep : ascii) (pieces : list string) : string :=
  match pieces with
  | [] => EmptyString
  | [piece] => piece
  | piece :: rest => piece +:+ String sep (join sep rest)
  end.

(** [s.splitlines()]: the lines of a text, a final newline closing the last
    line rather than opening an empty one. *)
Fixpoint lines (s : string) : list string :=
  match s with
  | EmptyString => []
  | String a s' =>
      if Ascii.eqb a LF then EmptyString :: lines s'
      else match lines s' with
           | [] => [String a EmptyString]
           | l :: ls => String a l :: ls
           end
  end.

(** The text before and after the first [c] of [s]. *)
Fixpoint cut (c : ascii) (s : string) : string * string :=
  match s with
  | EmptyString => (EmptyString, EmptyString)
  | String a s' =>
      if Ascii.eqb a c then (EmptyString, s')
      else let (l, r) := cut c s' in (String a l, r)
  end.

Definition is_digit (a : ascii) : bool :=
  (48 <=? nat_of_ascii a)%nat && (nat_of_ascii a <=? 57)%nat.

Fixpoint all_digits (s : string) : bool :=
  match s with
  | EmptyString => true
  | String a s' => is_digit a && all_digits s'
  end.

(** *** 4.1 Command log codec *)

(** Modelled from the spec: the [Command] class and the [rsf] module, which
    are not part of the sources at hand.  A command has an operation kind
    and a fixed-arity ordered list of string fields; the log holds one
    command per line, the fields separated by tabs. *)
Inductive op : Type :=
  | AddItem
  | AppendEntry
  | AssertRootHash
  | DefineField
  | DefineRegister
  | DefineCustomField.

Record Command : Type := Cmd { cmd_op : op; cmd_fields : list string }.

Definition op_name (o : op) : string :=
  match o with
  | AddItem => "add-item"
  | AppendEntry => "append-entry"
  | AssertRootHash => "assert-root-hash"
  | DefineField => "field"
  | DefineRegister => "register"
  | DefineCustomField => "custom-field"
  end.

Definition all_ops : list op :=
  [AddItem; AppendEntry; AssertRootHash; DefineField; DefineRegister;
   DefineCustomField].

Definition op_of_name (name : string) : option op :=
  find (fun o => String.eqb (op_name o) name) all_ops.

Definition arity (o : op) : nat :=
  match o with
  | AddItem => 1
  | AppendEntry => 3
  | AssertRootHash => 1
  | DefineField => 3
  | DefineRegister => 2
  | DefineCustomField => 1
  end.

(** Modelled from the spec: [Command.__str__], which is not part of the
    sources at hand.  The line of a command, without its newline: the name
    of its operation and its fields in their order, separated by tabs. *)
Definition serialise_command (c : Command) : string :=
  join TAB (op_name (cmd_op c) :: cmd_fields c).

(** Modelled from the spec: the serialisation of a log, one command per
    line; this is the text that [_apply] writes. *)
Definition serialise (cmds : list Command) : string :=
  String.concat "" (map (fun c => serialise_command c +:+ nl) cmds).

(** Modelled from the spec: the parse of a line, which fails with a
    [FormatError] on an unknown operation or a wrong field count. *)
Definition parse_line (line : string) : res Command :=
  match split TAB line with
  | [] => Err (FormatError "empty line")
  | name :: fields =>
      match op_of_name name with
      | None => Err (FormatError ("unknown operation: " +:+ name))
      | Some o =>
          if (List.length fields =? arity o)%nat then Ok (Cmd o fields)
          else Err (FormatError ("wrong field count: " +:+ line))
      end
  end.

Fixpoint parse_lines (ls : list string) : res (list Command) :=
  match ls with
  | [] => Ok []
  | l :: ls' =>
      match parse_line l with
      | Err e => Err e
      | Ok c =>
          match parse_lines ls' with
          | Err e => Err e
          | Ok cs => Ok (c :: cs)
          end
      end
  end.

(** Modelled from the spec: [rsf.read] on the text of a file, the commands
    in the order of the lines. *)
Definition parse (text : string) : res (list Command) :=
  parse_lines (lines text).

(** A command the codec can carry: its fields are as many as its operation
    takes and none holds a field or line separator. *)
Definition clean (s : string) : Prop :=
  occurs TAB s = false /\ occurs LF s = false.

Definition well_formed (c : Command) : Prop :=
  List.length (cmd_fields c) = arity (cmd_op c) /\ Forall clean (cmd_fields c).

(** *** 4.2 Schema *)

(** Modelled from the spec: the [Schema] class, which is not part of the
    sources at hand.  Field definitions (name, datatype, cardinality [1] or
    [n]), the designated primary-key field and the register metadata (name,
    custom field list), folded from the schema-defining commands
    [field name datatype cardinality], [register name primary-key] and
    [custom-field name]. *)
Inductive datatype : Type := DString | DInteger.

Inductive cardinality : Type := One | Many.

Record FieldDef : Type := Field {
  f_name : string;
  f_datatype : datatype;
  f_cardinality : cardinality
}.

Record Schema : Type := MkSchema {
  s_name : option string;
  s_primary_key : option string;
  s_fields : list FieldDef;
  s_custom_fields : list string
}.

Definition no_schema : Schema := MkSchema None None [] [].

Definition find_field (s : Schema) (name : string) : option FieldDef :=
  find (fun f => String.eqb (f_name f) name) (s_fields s).

(** Modelled from the spec: the schema is ready once the register is
    declared, with its primary key, and the field of the primary key is
    defined. *)
Definition isReady (s : Schema) : bool :=
  match s_name s, s_primary_key s with
  | Some _, Some pk =>
      match find_field s pk with
      | Some _ => true
      | None => false
      end
  | _, _ => false
  end.

Definition datatype_name (d : datatype) : string :=
  match d with
  | DString => "string"
  | DInteger => "integer"
  end.

Definition datatype_of_name (name : string) : option datatype :=
  if String.eqb name "string" then Some DString
  else if String.eqb name "integer" then Some DInteger
  else None.

Definition cardinality_of_name (name : string) : option cardinality :=
  if String.eqb name "1" then Some One
  else if String.eqb name "n" then Some Many
  else None.

(** Whether a raw value reads as a value of the datatype. *)
Definition coerces (d : datatype) (raw : string) : bool :=
  match d with
  | DString => true
  | DInteger =>
      match raw with
      | EmptyString => false
      | String "-" digits =>
          negb (String.eqb digits "") && all_digits digits
      | _ => all_digits raw
      end
  end.

Definition add_field (f : FieldDef) (s : Schema) : Schema :=
  match find_field s (f_name f) with
  | Some _ => s
  | None =>
      MkSchema (s_name s) (s_primary_key s) (s_fields s ++ [f])
        (s_custom_fields s)
  end.

(** *** 4.3 Tabular deserialiser *)

(** Modelled from the spec: the [xsv] module and the [Blob] class, which are
    not part of the sources at hand.  The delimiter is looked for among tab
    and comma in the header line; [;] is kept for the values of a field of
    cardinality [n] and refused as a delimiter.  Every row is split into the
    header's fields, every value coerced to its field's datatype, and the
    errors of all the rows are gathered. *)
Record Blob : Type := MkBlob {
  b_key : string;
  b_fields : list (string * list string)
}.

(** Modelled from the spec: the delimiter is a tab when the header line
    holds one, else a comma when it holds one; a header with neither and a
    [;] is refused, and a header of one column counts as comma-separated. *)
Definition detect_delimiter (header : string) : res ascii :=
  if occurs TAB header then Ok TAB
  else if occurs "," header then Ok ","%char
  else if occurs ";" header
       then Err (FormatError "';' separates the values of a field, not columns")
       else Ok ","%char.

Fixpoint resolve_header (s : Schema) (names : list string)
  : res (list FieldDef) :=
  match names with
  | [] => Ok []
  | name :: names' =>
      match find_field s name with
      | None => Err (FormatError ("unknown field: " +:+ name))
      | Some f =>
          match resolve_header s names' with
          | Err e => Err e
          | Ok fs => Ok (f :: fs)
          end
      end
  end.

Definition cell_values (f : FieldDef) (cell : string) : list string :=
  match f_cardinality f with
  | One => [cell]
  | Many => split ";" cell
  end.

Definition type_errors (row : nat) (f : FieldDef) (values : list string)
  : list row_error :=
  map (fun raw => TypeError row (f_name f) raw (datatype_name (f_datatype f)))
    (List.filter (fun raw => negb (coerces (f_datatype f) raw)) values).

Definition key_of (pk : string) (fields : list (string * list string))
  : string :=
  match find (fun nv => String.eqb (fst nv) pk) fields with
  | Some nv => join ";" (snd nv)
  | None => ""
  end.

Definition read_row (pk : string) (d : ascii) (fields : list FieldDef)
  (row : nat) (line : string) : list row_error + Blob :=
  let cells := split d line in
  if (List.length cells =? List.length fields)%nat then
    let values := map (fun fc => (fst fc, cell_values (fst fc) (snd fc)))
                    (combine fields cells) in
    match flat_map (fun fv => type_errors row (fst fv) (snd fv)) values with
    | [] =>
        let named := map (fun fv => (f_name (fst fv), snd fv)) values in
        inr (MkBlob (key_of pk named) named)
    | errs => inl errs
    end
  else inl [RowError row "wrong number of cells"].

Fixpoint read_rows (pk : string) (d : ascii) (fields : list FieldDef)
  (row : nat) (ls : list string) : list row_error * list Blob :=
  match ls with
  | [] => ([], [])
  | l :: ls' =>
      let rest := read_rows pk d fields (S row) ls' in
      match read_row pk d fields row l with
      | inl errs => (errs ++ fst rest, snd rest)
      | inr b => (fst rest, b :: snd rest)
      end
  end.

(** Modelled from the spec: [xsv.deserialise] on the text of a file.  The
    blobs come in the order of the rows; the errors of all the rows are
    raised together. *)
Definition deserialise (text : string) (s : Schema) : res (list Blob) :=
  match lines text with
  | [] => Err (FormatError "no header line")
  | header :: rows =>
      match detect_delimiter header with
      | Err e => Err e
      | Ok d =>
          match resolve_header s (split d header) with
          | Err e => Err e
          | Ok fields =>
              match s_primary_key s with
              | None => Err SchemaNotReadyError
              | Some pk =>
                  if existsb (fun f => String.eqb (f_name f) pk) fields then
                    match read_rows pk d fields 1 rows with
                    | ([], blobs) => Ok blobs
                    | (errs, _) => Err (RowErrors errs)
                    end
                  else Err (FormatError "no column for the primary key")
              end
          end
      end
  end.

(** *** Items *)

(** Modelled from the spec: the canonical serialisation of a blob, over
    which its hash is taken.  Fields come in the order of their names, so
    that the order of the columns does not show; a field is written
    [name=value;value] and the fields are joined by [&]. *)
Fixpoint insert_field (x : string * list string)
  (sorted : list (string * list string)) : list (string * list string) :=
  match sorted with
  | [] => [x]
  | y :: sorted' =>
      if String.leb (fst x) (fst y) then x :: y :: sorted'
      else y :: insert_field x sorted'
  end.

Definition sort_fields (fields : list (string * list string))
  : list (string * list string) :=
  fold_right insert_field [] fields.

Definition canonical (b : Blob) : string :=
  join "&" (map (fun nv => fst nv +:+ String "=" (join ";" (snd nv)))
              (sort_fields (b_fields b))).

(** The fields of an item, each with its raw text. *)
Definition item_fields (item : string) : list (string * string) :=
  match item with
  | EmptyString => []
  | _ => map (cut "=") (split "&" item)
  end.

(** *** 4.4 Register *)

(** Modelled from the spec: the [Register] class, which is not part of the
    sources at hand.  The state after replaying a log: schema, entries by
    key, items by hash, and the number of commands replayed. *)
Record Entry : Type := MkEntry {
  e_timestamp : string;
  e_hashes : list string
}.

Record Register : Type := MkRegister {
  schema : Schema;
  entries : gmap string Entry;
  items : gmap string string;
  commandCount : nat
}.

Definition empty_register : Register := MkRegister no_schema ∅ ∅ 0.

Definition with_schema (s : Schema) (r : Register) : Register :=
  MkRegister s (entries r) (items r) (S (commandCount r)).

(** The value that the entry of a key holds for a field: the field's text in
    the first item the entry refers to. *)
Definition value (r : Register) (key field : string) : option string :=
  entry ← entries r !! key;
  h ← head (e_hashes entry);
  item ← items r !! h;
  snd <$> find (fun nv => String.eqb (fst nv) field) (item_fields item).

Record ValidationError : Type := Violation {
  v_position : nat;
  v_reason : reason
}.

Record Patch : Type := MkPatch {
  p_schema : Schema;
  p_commands : list Command;
  p_timestamp : option string
}.

Section Hashed.
(** The hash of an item's canonical serialisation. *)
Variable hash : string -> string.

(** Modelled from the spec: one step of the replay, a strict left fold.
    Schema commands update the schema; an item command inserts into the item
    table and is refused only when another content sits under its hash; an
    entry command needs a ready schema and a timestamp not earlier than the
    entry's. *)
Definition exec (r : Register) (c : Command) : reason + Register :=
  match cmd_op c, cmd_fields c with
  | DefineField, [name; dt; card] =>
      match datatype_of_name dt, cardinality_of_name card with
      | Some d, Some k => inr (with_schema (add_field (Field name d k) (schema r)) r)
      | _, _ => inl (Malformed "field")
      end
  | DefineRegister, [name; pk] =>
      inr (with_schema
             (MkSchema (Some name) (Some pk) (s_fields (schema r))
                (s_custom_fields (schema r))) r)
  | DefineCustomField, [name] =>
      inr (with_schema
             (MkSchema (s_name (schema r)) (s_primary_key (schema r))
                (s_fields (schema r)) (s_custom_fields (schema r) ++ [name])) r)
  | AssertRootHash, [_] =>
      inr (MkRegister (schema r) (entries r) (items r) (S (commandCount r)))
  | AddItem, [item] =>
      match items r !! hash item with
      | None =>
          inr (MkRegister (schema r) (entries r)
                 (<[hash item := item]> (items r)) (S (commandCount r)))
      | Some held =>
          if String.eqb held item
          then inr (MkRegister (schema r) (entries r) (items r)
                      (S (commandCount r)))
          else inl (DuplicateItem (hash item))
      end
  | AppendEntry, [key; timestamp; hashes] =>
      if isReady (schema r) then
        let entry := MkEntry timestamp (split ";" hashes) in
        let next := MkRegister (schema r) (<[key := entry]> (entries r))
                      (items r) (S (commandCount r)) in
        match entries r !! key with
        | None => inr next
        | Some current =>
            if String.ltb timestamp (e_timestamp current)
            then inl (OutOfOrder key)
            else inr next
        end
      else inl SchemaNotReady
  | _, _ => inl (Malformed "field count")
  end.

Definition replay_error (position : nat) (why : reason)
  : RegistersException :=
  match why with
  | SchemaNotReady => SchemaNotReadyError
  | _ => ReplayError position why
  end.

(** Modelled from the spec: the replay from a register on, which fails at
    the first command refused, with its position and the reason. *)
Fixpoint replay (r : Register) (position : nat) (cmds : list Command)
  : res Register :=
  match cmds with
  | [] => Ok r
  | c :: cmds' =>
      match exec r c with
      | inl why => Err (replay_error position why)
      | inr r' => replay r' (S position) cmds'
      end
  end.

(** Modelled from the spec: [Register(cmds)], the replay of a log from the
    empty register. *)
Definition build (cmds : list Command) : res Register :=
  replay empty_register 0 cmds.

(** *** 4.5 Patch builder *)

(** Modelled from the spec: the [Patch] class, which is not part of the
    sources at hand.  From blobs: per blob, in the order of the rows, an
    [add-item] of its canonical serialisation and then an [append-entry]
    of its key, the timestamp and the item's hash.  From commands: the
    commands as they are. *)
(** Modelled from the spec: the two commands of a blob, item before
    entry. *)
Definition blob_commands (timestamp : string) (b : Blob) : list Command :=
  let item := canonical b in
  [Cmd AddItem [item]; Cmd AppendEntry [b_key b; timestamp; hash item]].

(** Modelled from the spec: [Patch(schema, data, timestamp)], which is
    given the schema, the blobs or the commands and the timestamp, and not
    the register. *)
Definition patch_init (s : Schema) (data : list Blob + list Command)
  (timestamp : option string) : res Patch :=
  match data with
  | inr cmds => Ok (MkPatch s cmds timestamp)
  | inl blobs =>
      match timestamp with
      | Some t => Ok (MkPatch s (flat_map (blob_commands t) blobs) (Some t))
      | None => Err (FormatError "a patch of blobs needs a timestamp")
      end
  end.

(** *** 4.6 Validator and applier *)

(** Modelled from the spec: the violations of a field of an item.  Every
    command of the patch is checked against the register as the commands
    accepted before it left it: schema readiness, conformance of the item's
    values to the datatype of their fields, presence of the primary key,
    items of an entry resolved, timestamps not going back. *)
Definition field_violations (s : Schema) (nv : string * string)
  : list reason :=
  match find_field s (fst nv) with
  | None => [TypeMismatch (fst nv) (snd nv) "a field of the schema"]
  | Some f =>
      map (fun raw => TypeMismatch (fst nv) raw (datatype_name (f_datatype f)))
        (List.filter (fun raw => negb (coerces (f_datatype f) raw))
           (cell_values f (snd nv)))
  end.

Definition key_violations (s : Schema) (fields : list (string * string))
  : list reason :=
  match s_primary_key s with
  | None => [MissingPrimaryKey]
  | Some pk =>
      match find (fun nv => String.eqb (fst nv) pk) fields with
      | Some (_, String _ _) => []
      | _ => [MissingPrimaryKey]
      end
  end.

(** Modelled from the spec: what a command violates in a register, before
    it is replayed. *)
Definition check (r : Register) (c : Command) : list reason :=
  match cmd_op c, cmd_fields c with
  | AddItem, [item] =>
      if isReady (schema r) then
        flat_map (field_violations (schema r)) (item_fields item)
        ++ key_violations (schema r) (item_fields item)
      else [SchemaNotReady]
  | AppendEntry, [key; timestamp; hashes] =>
      if isReady (schema r) then
        (if String.eqb key "" then [MissingPrimaryKey] else [])
        ++ map UnresolvedItem
             (List.filter (fun h => negb (bool_decide (is_Some (items r !! h))))
                (split ";" hashes))
      else [SchemaNotReady]
  | _, _ => []
  end.

(** Modelled from the spec: what one command adds to the error list, and
    the register it leaves: the violations found by [check], or else what
    the replay step refuses (a timestamp that goes back, another item under
    the hash); a command with a violation leaves the register as it was. *)
Definition judge (r : Register) (c : Command) : list reason * Register :=
  match check r c with
  | [] =>
      match exec r c with
      | inr r' => ([], r')
      | inl why => ([why], r)
      end
  | whys => (whys, r)
  end.

(** Modelled from the spec: the validation of the commands of a patch, one
    after the other, none skipped. *)
Fixpoint validate_from (r : Register) (position : nat)
  (cmds : list Command) : list ValidationError * Register :=
  match cmds with
  | [] => ([], r)
  | c :: cmds' =>
      let (whys, r') := judge r c in
      let (errs, r'') := validate_from r' (S position) cmds' in
      (map (Violation position) whys ++ errs, r'')
  end.

(** The register that the command at a position is judged against: the
    register as the commands before it left it. *)
Definition register_at (r : Register) (cmds : list Command) (position : nat)
  : Register :=
  fold_left (fun r' c => snd (judge r' c)) (take position cmds) r.

(** What the command at a position violates. *)
Definition violations_at (r : Register) (cmds : list Command) (position : nat)
  : list ValidationError :=
  match cmds !! position with
  | Some c => map (Violation position) (fst (judge (register_at r cmds position) c))
  | None => []
  end.

(** The violations of every command of a patch, in the order of the
    commands. *)
Definition all_violations (r : Register) (cmds : list Command)
  : list ValidationError :=
  flat_map (violations_at r cmds) (seq 0 (List.length cmds)).

(** Modelled from the spec: [register.apply(patch)], the errors and the
    register afterwards, which is the register itself when there are
    errors. *)
Definition register_apply (r : Register) (p : Patch)
  : list ValidationError * Register :=
  let (errs, r') := validate_from r 0 (p_commands p) in
  match errs with
  | [] => ([], r')
  | _ => (errs, r)
  end.

(** Modelled from the spec: [utils.check_readiness], which is not part of
    the sources at hand. *)
Definition check_readiness (r : Register) : res unit :=
  if isReady (schema r) then Ok tt else Err SchemaNotReadyError.

End Hashed.

(** *** Messages *)

Definition reason_str (why : reason) : string :=
  match why with
  | SchemaNotReady => "the schema is not ready"
  | DuplicateItem h => "another item is held under the hash " +:+ h
  | OutOfOrder key => "the entry " +:+ key +:+ " has a later timestamp"
  | TypeMismatch field raw expected =>
      "the value '" +:+ raw +:+ "' of the field " +:+ field +:+ " is not "
      +:+ expected
  | MissingPrimaryKey => "the primary key is missing"
  | UnresolvedItem h => "no item is held under the hash " +:+ h
  | Malformed what => "malformed " +:+ what
  end.

Definition ValidationError_str (e : ValidationError) : string :=
  "command " +:+ pretty (v_position e) +:+ ": " +:+ reason_str (v_reason e).

Definition row_error_str (e : row_error) : string :=
  match e with
  | RowError row msg => "row " +:+ pretty row +:+ ": " +:+ msg
  | TypeError row field raw expected =>
      "row " +:+ pretty row +:+ ": the value '" +:+ raw +:+ "' of the field "
      +:+ field +:+ " is not " +:+ expected
  end.

Definition exception_str (e : RegistersException) : string :=
  match e with
  | FormatError msg => msg
  | SchemaNotReadyError => "the schema is not ready"
  | RowErrors errs => join LF (map row_error_str errs)
  | ReplayError position why =>
      "command " +:+ pretty position +:+ ": " +:+ reason_str why
  end.

End Registers.

(** The engine that [patch.py] runs on, for a hash function. *)
Definition registers_engine (hash : string -> string) : Engine := {|
  Command := Registers.Command;
  Register := Registers.Register;
  Schema := Registers.Schema;
  Blob := Registers.Blob;
  Patch := Registers.Patch;
  ValidationError := Registers.ValidationError;
  cmd_str := Registers.serialise_command;
  err_str := Registers.ValidationError_str;
  exn_str := Registers.exception_str;
  rsf_parse := Registers.parse;
  Register_init := Registers.build hash;
  check_readiness := Registers.check_readiness;
  Register_schema := Registers.schema;
  xsv_deserialise := Registers.deserialise;
  Patch_init := Registers.patch_init hash;
  Patch_commands := Registers.p_commands;
  Register_apply := fun r p => Ok (Registers.register_apply hash r p)
|}.

(** ** The replay, rule by rule *)

Module Replay.
Import Registers.

Section Hashed.
Variable hash : string -> string.



End Hashed.

End Replay.

(** ** click *)

(** Modelled from the spec: [core.format_timestamp], which is not part of
    the sources at hand.  The timestamp is an RFC3339-formatted string. *)
Definition digit (d : nat) : ascii := ascii_of_nat (48 + d).

(** The last [width] decimal digits of a number, and what is left of it. *)
Fixpoint fixed (width n : nat) : nat * string :=
  match width with
  | 0 => (n, "")
  | S width' =>
      let (q, s) := fixed width' (n / 10) in
      (q, s +:+ String (digit (n mod 10)) "")
  end.

(** A number in [width] digits, zeros first; a number that does not fit is
    written in full. *)
Definition pad (width n : nat) : string :=
  let (q, s) := fixed width n in
  if (q =? 0)%nat then s else pretty n.

Definition format_timestamp (t : datetime) : string :=
  pad 4 (year t) +:+ "-" +:+ pad 2 (month t) +:+ "-" +:+ pad 2 (day t) +:+ "T"
  +:+ pad 2 (hour t) +:+ ":" +:+ pad 2 (minute t) +:+ ":" +:+ pad 2 (second t)
  +:+ "Z".

(** The points in time that a [datetime] can hold. *)
Definition valid_datetime (t : datetime) : bool :=
  (1 <=? year t)%nat && (year t <? 100 * 100)%nat
  && (1 <=? month t)%nat && (month t <=? 12)%nat
  && (1 <=? day t)%nat && (day t <=? 31)%nat
  && (hour t <=? 23)%nat && (minute t <=? 59)%nat && (second t <=? 59)%nat.

(** A text after a pattern, [None] standing for a digit. *)
Fixpoint shaped (pattern : list (option ascii)) (s : string) : bool :=
  match pattern, s with
  | [], EmptyString => true
  | None :: pattern', String a s' =>
      Registers.is_digit a && shaped pattern' s'
  | Some c :: pattern', String a s' => Ascii.eqb a c && shaped pattern' s'
  | _, _ => false
  end.

Definition digits (n : nat) : list (option ascii) := repeat None n.

(** The RFC3339 shape of a time in UTC, to the second:
    [dddd-dd-ddTdd:dd:ddZ]. *)
Definition rfc3339 (s : string) : bool :=
  shaped (digits 4 ++ [Some "-"%char] ++ digits 2 ++ [Some "-"%char]
          ++ digits 2 ++ [Some "T"%char] ++ digits 2 ++ [Some ":"%char]
          ++ digits 2 ++ [Some ":"%char] ++ digits 2 ++ [Some "Z"%char]) s.

(** What importing [patch.py] leaves: the decorators of [create_command] have
    run, and [default=format_timestamp(datetime.utcnow())] is the value that
    its expression had then. *)
Record patch_module : Type := PatchModule { timestamp_default : string }.

Definition import_patch : M patch_module :=
  now <- utcnow ;;
  ret (PatchModule (format_timestamp now)).

(** [type=click.Path(exists=True)] on [--rsf]: click refuses a path that
    does not exist before the command runs, with a usage error (written to
    the standard error, which the world does not hold) and the status 2. *)
Definition click_path_exists (path : string) : M unit :=
  fun w =>
    match fs w !! path with
    | Some _ => (Return tt, w)
    | None => exit 2 w
    end.

(** [patch create XSV_FILE --rsf RSF_FILE [--timestamp T] [--apply]]: click
    checks [--rsf], fills the options in and calls [create_command]. *)
Definition patch_create {E : Engine} (m : patch_module)
  (xsv_file rsf_file : string) (timestamp : option string) (apply_flag : bool)
  : M unit :=
  click_path_exists rsf_file ;;;
  create_command xsv_file rsf_file (default (timestamp_default m) timestamp)
    apply_flag.

(** [patch apply PATCH_FILE --rsf RSF_FILE] *)
Definition patch_apply {E : Engine} (patch_file rsf_file : string) : M unit :=
  click_path_exists rsf_file ;;;
  apply_command patch_file rsf_file.

(** The same process at a later time. *)
Definition later (t : datetime) (w : world) : world :=
  World (fs w) (stdout w) (trace w) t.

(** ** A register to try things on *)

Module Demo.

(** A hash without collisions: the serialisation itself. *)
Definition plain (s : string) : string := s.

Definition engine : Engine := registers_engine plain.

Definition T : string := String TAB "".

(** The log of a register that is ready and holds nothing. *)
Definition ready_log : string :=
  "field" +:+ T +:+ "key" +:+ T +:+ "string" +:+ T +:+ "1" +:+ nl
  +:+ "field" +:+ T +:+ "name" +:+ T +:+ "string" +:+ T +:+ "1" +:+ nl
  +:+ "register" +:+ T +:+ "demo" +:+ T +:+ "key" +:+ nl.

(** The log of a register whose schema still lacks its primary key. *)
Definition unready_log : string :=
  "field" +:+ T +:+ "name" +:+ T +:+ "string" +:+ T +:+ "1" +:+ nl.

Definition rows : string :=
  "key,name" +:+ nl +:+ "1,Alpha" +:+ nl +:+ "2,Beta".

(** Rows whose second and third have no key. *)
Definition bad_rows : string :=
  "key,name" +:+ nl +:+ "1,Alpha" +:+ nl +:+ ",Beta" +:+ nl +:+ ",Gamma".

Definition semicolon_rows : string :=
  "key;name" +:+ nl +:+ "1;Alpha" +:+ nl +:+ "2;Beta".

Definition midnight : datetime := Datetime 2024 1 1 0 0 0.
Definition a_second_later : datetime := Datetime 2024 1 1 0 0 1.

Definition files : gmap string string :=
  <["register.rsf" := ready_log]>
    (<["unready.rsf" := unready_log]>
       (<["rows.csv" := rows]>
          (<["bad.csv" := bad_rows]>
             (<["semicolon.csv" := semicolon_rows]> ∅)))).

Definition start : world := World files [] [] midnight.

Definition stamp : string := "2024-01-01T00:00:00Z".

Definition schema : Registers.Schema :=
  Registers.MkSchema (Some "demo") (Some "key")
    [Registers.Field "key" Registers.DString Registers.One;
     Registers.Field "name" Registers.DString Registers.One] [].

(** The register of [ready_log]. *)
Definition ready : Registers.Register := Registers.MkRegister schema ∅ ∅ 3.

(** The patch of [rows]. *)
Definition patch : Registers.Patch :=
  Registers.MkPatch schema
    [Registers.Cmd Registers.AddItem ["key=1&name=Alpha"];
     Registers.Cmd Registers.AppendEntry ["1"; stamp; "key=1&name=Alpha"];
     Registers.Cmd Registers.AddItem ["key=2&name=Beta"];
     Registers.Cmd Registers.AppendEntry ["2"; stamp; "key=2&name=Beta"]]
    (Some stamp).

(** The items of [rows], the patch that a hash makes of them, and the
    register that the patch leaves. *)
Definition alpha : string := "key=1&name=Alpha".
Definition beta : string := "key=2&name=Beta".

Definition commands (hash : string -> string) : list Registers.Command :=
  [Registers.Cmd Registers.AddItem [alpha];
   Registers.Cmd Registers.AppendEntry ["1"; stamp; hash alpha];
   Registers.Cmd Registers.AddItem [beta];
   Registers.Cmd Registers.AppendEntry ["2"; stamp; hash beta]].

Definition patched (hash : string -> string) : Registers.Register :=
  Registers.MkRegister schema
    (<["2" := Registers.MkEntry stamp [hash beta]]>
       (<["1" := Registers.MkEntry stamp [hash alpha]]> ∅))
    (<[hash beta := beta]> (<[hash alpha := alpha]> ∅)) 7.

(** The patch of [bad_rows], and what [register.apply] finds in it. *)
Definition bad_patch : Registers.Patch :=
  Registers.MkPatch schema
    [Registers.Cmd Registers.AddItem ["key=1&name=Alpha"];
     Registers.Cmd Registers.AppendEntry ["1"; stamp; "key=1&name=Alpha"];
     Registers.Cmd Registers.AddItem ["key=&name=Beta"];
     Registers.Cmd Registers.AppendEntry [""; stamp; "key=&name=Beta"];
     Registers.Cmd Registers.AddItem ["key=&name=Gamma"];
     Registers.Cmd Registers.AppendEntry [""; stamp; "key=&name=Gamma"]]
    (Some stamp).

Definition bad_errors : list Registers.ValidationError :=
  [Registers.Violation 2 MissingPrimaryKey;
   Registers.Violation 3 MissingPrimaryKey;
   Registers.Violation 3 (UnresolvedItem "key=&name=Beta");
   Registers.Violation 4 MissingPrimaryKey;
   Registers.Violation 5 MissingPrimaryKey;
   Registers.Violation 5 (UnresolvedItem "key=&name=Gamma")].

End Demo.

(** A patch file beside the files of [Demo], for [apply]. *)
Module DemoApply.

(** The patch of [Demo.rows] as [apply] reads it back: no timestamp. *)
Definition patch : Registers.Patch :=
  Registers.MkPatch Demo.schema (Registers.p_commands Demo.patch) None.

Definition patch_file : string :=
  Registers.serialise (Registers.p_commands Demo.patch).

Definition files : gmap string string :=
  <["patch.rsf" := patch_file]> Demo.files.

Definition start : world := World files [] [] Demo.midnight.

(** A patch of no command. *)
Definition empty_patch : Registers.Patch :=
  Registers.MkPatch Demo.schema [] None.

End DemoApply.

(** * Properties *)

(** ** [patch.py], whatever the engine *)

Section PatchFacts.
Context {E : Engine}.

Lemma ok_Some {A} (r : res A) (a : A) : ok r = Some a -> r = Ok a.
Proof. destruct r; simpl; congruence. Qed.

Lemma for_each_secho {A} (f : A -> string) colour (xs : list A) w :
  for_each xs (fun x => secho (f x) colour) w
  = (Return tt,
     World (fs w) (stdout w ++ map (fun x => Echoed (f x) colour) xs)
       (trace w) (clock w)).
Proof.
  revert w. induction xs as [|x xs IH]; intros [files out evs now]; simpl.
  - by rewrite app_nil_r.
  - unfold bind at 1. simpl. rewrite IH. simpl. by rewrite <- app_assoc.
Qed.

Lemma report_nil w : report [] w = (Return tt, w).
Proof. reflexivity. Qed.

Lemma report_cons e es w :
  report (e :: es) w
  = (Exit 1,
     World (fs w) (stdout w ++ map red (e :: es)) (trace w ++ [EvExit 1])
       (clock w)).
Proof. unfold report, bind. rewrite for_each_secho. reflexivity. Qed.

Lemma errors_of_Some r p errors :
  errors_of r p = Some errors ->
  exists r', Register_apply r p = Ok (errors, r').
Proof.
  unfold errors_of. destruct (Register_apply r p) as [[es r']|]; simpl;
    intros H; inversion H; subst. by exists r'.
Qed.

End PatchFacts.

Ltac unfold_py :=
  cbv [create apply _apply append_lines bind rsf_read open_read emit exit
       lift ret raise try_except create_command apply_command utils_error
       utils_success];
  cbn [fs stdout trace clock fst snd].

(** Runs a call along the equations at hand. *)
Ltac run :=
  unfold_py;
  repeat (match goal with
          | H : ?x = _ |- context [match ?x with _ => _ end] =>
              rewrite H; unfold_py
          | |- context [report (_ :: _) _] => rewrite report_cons; unfold_py
          | |- context [report [] _] => rewrite report_nil; unfold_py
          end).

(** Runs a call along every way it can take. *)
Ltac cases :=
  unfold_py;
  repeat (match goal with
          | |- context [report (_ :: _) _] => rewrite report_cons; unfold_py
          | |- context [report [] _] => rewrite report_nil; unfold_py
          | |- context [report (fst ?a) _] =>
              destruct a as [[|? ?] ?]; cbn [fst]
          | |- context [match ?x with _ => _ end] =>
              lazymatch x with
              | context [match _ with _ => _ end] => fail
              | _ => destruct x eqn:?; unfold_py
              end
          end).

(** Takes the equations of [create_inputs] or [apply_inputs] apart. *)
Ltac inputs H :=
  unfold create_inputs, apply_inputs in H; simplify_option_eq;
  repeat match goal with
         | H : ok _ = Some _ |- _ => apply ok_Some in H
         | u : unit |- _ => destruct u
         end.

Section PatchRuns.
Context {E : Engine}.

(** [_apply] appends the patch's text to the log and counts its commands. *)
Lemma _apply_run patch rsf_file w :
  _apply patch rsf_file w
  = (Return (Summary (length (Patch_commands patch))),
     World (committed patch rsf_file (fs w)) (stdout w)
       (trace w ++ commit_events rsf_file) (clock w)).
Proof. unfold_py. unfold commit_events. by rewrite <- app_assoc. Qed.

Lemma create_rejects xsv rsf ts flag w r p e es :
  create_inputs xsv rsf ts w = Some (r, p) ->
  errors_of r p = Some (e :: es) ->
  create xsv rsf ts flag w
  = (Exit 1,
     World (fs w) (stdout w ++ map red (e :: es))
       (trace w ++ create_events xsv rsf ++ [EvExit 1]) (clock w)).
Proof.
  intros H Ha. apply errors_of_Some in Ha as [r' Ha]. inputs H.
  run. simpl. rewrite <- !app_assoc. reflexivity.
Qed.

Lemma apply_rejects patch_file rsf w r p e es :
  apply_inputs patch_file rsf w = Some (r, p) ->
  errors_of r p = Some (e :: es) ->
  apply patch_file rsf w
  = (Exit 1,
     World (fs w) (stdout w ++ map red (e :: es))
       (trace w ++ apply_events patch_file rsf ++ [EvExit 1]) (clock w)).
Proof.
  intros H Ha. apply errors_of_Some in Ha as [r' Ha]. inputs H.
  run. simpl. rewrite <- !app_assoc. reflexivity.
Qed.

Lemma create_accepts xsv rsf ts flag w r p :
  create_inputs xsv rsf ts w = Some (r, p) ->
  errors_of r p = Some [] ->
  create xsv rsf ts flag w
  = if flag
    then (Return (Summary (length (Patch_commands p))),
          World (committed p rsf (fs w)) (stdout w)
            (trace w ++ create_events xsv rsf ++ commit_events rsf) (clock w))
    else (Return (Commands (Patch_commands p)),
          World (fs w) (stdout w) (trace w ++ create_events xsv rsf) (clock w)).
Proof.
  intros H Ha. apply errors_of_Some in Ha as [r' Ha]. inputs H.
  run. destruct flag; simpl; rewrite <- !app_assoc; reflexivity.
Qed.

Lemma apply_accepts patch_file rsf w r p :
  apply_inputs patch_file rsf w = Some (r, p) ->
  errors_of r p = Some [] ->
  apply patch_file rsf w
  = (Return (Summary (length (Patch_commands p))),
     World (committed p rsf (fs w)) (stdout w)
       (trace w ++ apply_events patch_file rsf ++ commit_events rsf) (clock w)).
Proof.
  intros H Ha. apply errors_of_Some in Ha as [r' Ha]. inputs H.
  run. simpl. rewrite <- !app_assoc. reflexivity.
Qed.

End PatchRuns.

(** ** Text *)

Module TextFacts.
Import Registers.

Local Arguments String.append !_ _ /.

Lemma append_nil_r (s : string) : s +:+ "" = s.
Proof. induction s as [|a s IH]; simpl; [reflexivity | by f_equal]. Qed.

Lemma append_assoc (s t u : string) : (s +:+ t) +:+ u = s +:+ (t +:+ u).
Proof. induction s as [|a s IH]; simpl; [reflexivity | by f_equal]. Qed.

Lemma concat_cons (x : string) (xs : list string) :
  String.concat "" (x :: xs) = x +:+ String.concat "" xs.
Proof. destruct xs; simpl; [by rewrite append_nil_r | reflexivity]. Qed.

Lemma prefix_append (s t : string) : String.prefix s (s +:+ t) = true.
Proof.
  induction s as [|a s IH]; simpl.
  - by destruct t.
  - destruct (ascii_dec a a); [exact IH | congruence].
Qed.

Lemma get_append (s t : string) (i : nat) (a : ascii) :
  String.get i s = Some a -> String.get i (s +:+ t) = Some a.
Proof.
  revert i. induction s as [|b s IH]; intros [|i]; simpl; try discriminate;
    auto.
Qed.

Lemma occurs_append c (s t : string) :
  occurs c (s +:+ t) = occurs c s || occurs c t.
Proof.
  induction s as [|a s IH]; simpl; [reflexivity|].
  destruct (Ascii.eqb a c); [reflexivity | exact IH].
Qed.

Lemma occurs_join c sep (pieces : list string) :
  c <> sep ->
  Forall (fun piece => occurs c piece = false) pieces ->
  occurs c (join sep pieces) = false.
Proof.
  intros Hne. induction 1 as [|piece rest Hp _ IH]; [reflexivity|].
  destruct rest as [|next rest]; [exact Hp|].
  change (occurs c (piece +:+ String sep (join sep (next :: rest))) = false).
  rewrite occurs_append, Hp. simpl occurs.
  destruct (Ascii.eqb_spec sep c); [congruence | exact IH].
Qed.

Lemma occurs_join_sep sep (piece next : string) (rest : list string) :
  occurs sep (join sep (piece :: next :: rest)) = true.
Proof.
  change (occurs sep (piece +:+ String sep (join sep (next :: rest))) = true).
  rewrite occurs_append. simpl occurs. rewrite Ascii.eqb_refl.
  apply orb_true_r.
Qed.

(** A text without the separator is one piece. *)
Lemma split_whole sep (s : string) :
  occurs sep s = false -> split sep s = [s].
Proof.
  induction s as [|a s IH]; simpl; [reflexivity|].
  destruct (Ascii.eqb a sep); [discriminate|].
  intros H. by rewrite (IH H).
Qed.

Lemma split_append sep (s rest : string) :
  occurs sep s = false ->
  split sep (s +:+ String sep rest) = s :: split sep rest.
Proof.
  induction s as [|a s IH]; simpl.
  - by rewrite Ascii.eqb_refl.
  - destruct (Ascii.eqb a sep); [discriminate|].
    intros H. by rewrite (IH H).
Qed.

(** Splitting what was joined gives the pieces back, empty ones too. *)
Lemma split_join sep (pieces : list string) :
  pieces <> [] ->
  Forall (fun piece => occurs sep piece = false) pieces ->
  split sep (join sep pieces) = pieces.
Proof.
  intros Hne H. induction H as [|piece rest Hp Hrest IH]; [congruence|].
  destruct rest as [|next rest].
  - simpl. by apply split_whole.
  - change (split sep (piece +:+ String sep (join sep (next :: rest)))
            = piece :: next :: rest).
    rewrite split_append by exact Hp. f_equal. by apply IH.
Qed.

Lemma lines_append (s rest : string) :
  occurs LF s = false -> lines (s +:+ String LF rest) = s :: lines rest.
Proof.
  induction s as [|a s IH]; simpl.
  - reflexivity.
  - destruct (Ascii.eqb a LF); [discriminate|].
    intros H. by rewrite (IH H).
Qed.

Lemma lines_whole (s : string) :
  occurs LF s = false -> s <> "" -> lines s = [s].
Proof.
  induction s as [|a s IH]; simpl; [congruence|].
  destruct (Ascii.eqb a LF); [discriminate|].
  intros H _. destruct s as [|b s]; [reflexivity|].
  rewrite IH; [reflexivity | exact H | discriminate].
Qed.

(** The lines of a text written line by line, every line with its
    newline, are the lines written. *)
Lemma lines_concat (ls : list string) :
  Forall (fun l => occurs LF l = false) ls ->
  lines (String.concat "" (map (fun l => l +:+ nl) ls)) = ls.
Proof.
  induction 1 as [|l ls Hl _ IH]; [reflexivity|].
  rewrite map_cons, concat_cons. unfold nl at 1.
  rewrite append_assoc. simpl append at 2.
  rewrite lines_append by exact Hl. by rewrite IH.
Qed.

End TextFacts.

(** ** The command log codec *)

Module CodecFacts.
Import Registers TextFacts.

Lemma op_of_name_name (o : op) : op_of_name (op_name o) = Some o.
Proof. by destruct o. Qed.

Lemma op_name_clean (o : op) : clean (op_name o).
Proof. by destruct o. Qed.

Lemma parse_line_serialise (c : Command) :
  well_formed c -> parse_line (serialise_command c) = Ok c.
Proof.
  destruct c as [o fields]. intros [Harity Hclean]. simpl in *.
  unfold parse_line, serialise_command. simpl cmd_op. simpl cmd_fields.
  rewrite split_join.
  - rewrite op_of_name_name, Harity, Nat.eqb_refl. reflexivity.
  - discriminate.
  - constructor; [apply op_name_clean|].
    eapply Forall_impl; [exact Hclean|]. by intros f [Htab _].
Qed.

Lemma serialise_command_one_line (c : Command) :
  well_formed c -> occurs LF (serialise_command c) = false.
Proof.
  intros [_ Hclean]. unfold serialise_command. apply occurs_join.
  - discriminate.
  - constructor; [apply op_name_clean|].
    eapply Forall_impl; [exact Hclean|]. by intros f [_ Hlf].
Qed.

Lemma parse_lines_serialised (cmds : list Command) :
  Forall well_formed cmds ->
  parse_lines (map serialise_command cmds) = Ok cmds.
Proof.
  induction 1 as [|c cmds Hc _ IH]; [reflexivity|].
  simpl. by rewrite parse_line_serialise, IH.
Qed.

Lemma lines_serialise (cmds : list Command) :
  Forall well_formed cmds ->
  lines (serialise cmds) = map serialise_command cmds.
Proof.
  intros H. unfold serialise.
  rewrite <- (lines_concat (map serialise_command cmds)).
  - by rewrite map_map.
  - apply Forall_map. eapply Forall_impl; [exact H|].
    intros c. apply serialise_command_one_line.
Qed.

End CodecFacts.

(** C4. Round trip of the codec: for every list of well-formed commands
    (each with as many fields as its operation takes, no field holding a tab
    or a newline), parsing the serialisation gives the list back, the fields
    in their order and the empty ones kept. *)
Theorem parse_serialise (cmds : list Registers.Command) :
  Forall Registers.well_formed cmds ->
  Registers.parse (Registers.serialise cmds) = Ok cmds.
Proof.
  intros H. unfold Registers.parse.
  rewrite CodecFacts.lines_serialise by exact H.
  by apply CodecFacts.parse_lines_serialised.
Qed.

Lemma parse_serialise_witness :
  Registers.parse
    (Registers.serialise
       [Registers.Cmd Registers.AddItem ["key=1&name=Alpha"];
        Registers.Cmd Registers.AppendEntry ["1"; ""; "key=1&name=Alpha"]])
  = Ok [Registers.Cmd Registers.AddItem ["key=1&name=Alpha"];
        Registers.Cmd Registers.AppendEntry ["1"; ""; "key=1&name=Alpha"]].
Proof.
  apply parse_serialise.
  repeat constructor.
Defined.

(** ** The claims on [patch.py] *)

(** C2. The commit only appends.  Whatever the patch and the files, [_apply]
    returns the number of the patch's commands and leaves the log as it was
    with the patch's text after it: the old log is a prefix of the new one,
    byte for byte, every other file is as it was, and the text added is the
    patch's commands in their order, each on a line of its own when no
    command's text holds a newline.  The commits of [create] (with [--apply])
    and of [apply], which come after a validation without errors, are this
    one. *)
Theorem commit_only_appends {E : Engine} (patch : Patch) (rsf_file : string)
  (w : world) :
  let old := default "" (fs w !! rsf_file) in
  let after := snd (_apply patch rsf_file w) in
  fst (_apply patch rsf_file w)
  = Return (Summary (length (Patch_commands patch)))
  /\ fs after !! rsf_file = Some (old +:+ patch_text patch)
  /\ String.prefix old (old +:+ patch_text patch) = true
  /\ (forall i a, String.get i old = Some a ->
                  String.get i (old +:+ patch_text patch) = Some a)
  /\ (forall path, path <> rsf_file -> fs after !! path = fs w !! path)
  /\ (Forall (fun cmd => Registers.occurs LF (cmd_str cmd) = false)
        (Patch_commands patch) ->
      Registers.lines (patch_text patch) = map cmd_str (Patch_commands patch))
  /\ (forall xsv_file timestamp register,
        create_inputs xsv_file rsf_file timestamp w = Some (register, patch) ->
        errors_of register patch = Some [] ->
        fs (snd (create xsv_file rsf_file timestamp true w)) = fs after)
  /\ (forall patch_file register,
        apply_inputs patch_file rsf_file w = Some (register, patch) ->
        errors_of register patch = Some [] ->
        fs (snd (apply patch_file rsf_file w)) = fs after).
Proof.
  intros old after. subst after. rewrite _apply_run. cbn [fst snd fs].
  unfold committed. fold old.
  split; [reflexivity|].
  split; [apply lookup_insert_eq|].
  split; [apply TextFacts.prefix_append|].
  split; [intros i a; apply TextFacts.get_append|].
  split; [intros path Hne; by apply lookup_insert_ne|].
  split.
  - intros H. unfold patch_text.
    rewrite <- (TextFacts.lines_concat (map cmd_str (Patch_commands patch))).
    + by rewrite map_map.
    + by apply Forall_map.
  - split.
    + intros xsv ts r Hin Herr.
      by rewrite (create_accepts _ _ _ true _ _ _ Hin Herr).
    + intros pf r Hin Herr.
      by rewrite (apply_accepts _ _ _ _ _ Hin Herr).
Qed.

Lemma commit_only_appends_witness :
  fs (snd (create (E := Demo.engine) "rows.csv" "register.rsf" Demo.stamp true
             Demo.start)) !! "register.rsf"
  = Some (Demo.ready_log +:+ patch_text (E := Demo.engine) Demo.patch)
  /\ Registers.lines (patch_text (E := Demo.engine) Demo.patch)
     = map Registers.serialise_command (Registers.p_commands Demo.patch).
Proof.
  destruct (commit_only_appends (E := Demo.engine) Demo.patch "register.rsf"
              Demo.start) as (_ & Hlog & _ & _ & _ & Hlines & Hcreate & _).
  split.
  - rewrite (Hcreate "rows.csv" Demo.stamp Demo.ready);
      [exact Hlog | vm_compute; reflexivity | vm_compute; reflexivity].
  - apply Hlines. repeat constructor.
Defined.

Section PatchClaims.
Context {E : Engine}.

Lemma create_inputs_register xsv rsf ts w r p :
  create_inputs xsv rsf ts w = Some (r, p) -> register_of rsf w = Some r.
Proof.
  intros H. inputs H. unfold register_of.
  repeat match goal with H : _ = _ |- _ => rewrite H; simpl end.
  reflexivity.
Qed.

Lemma apply_inputs_register patch_file rsf w r p :
  apply_inputs patch_file rsf w = Some (r, p) -> register_of rsf w = Some r.
Proof.
  intros H. inputs H. unfold register_of.
  repeat match goal with H : _ = _ |- _ => rewrite H; simpl end.
  reflexivity.
Qed.



(** C1. All or nothing.  When [register.apply(patch)] returns a list of
    errors that is not empty, [create] (with or without [--apply]) and
    [apply] leave the process with status 1 and commit nothing: every file,
    the log among them, holds what it held, and the register built from
    the log after the call is the register built from it before, the one
    the patch was judged against. *)
Theorem rejected_patch_commits_nothing (rsf_file : string) (w : world)
  (register : Register) (patch : Patch) (errors : list ValidationError) :
  errors_of register patch = Some errors ->
  errors <> [] ->
  (forall xsv_file timestamp apply_flag,
      create_inputs xsv_file rsf_file timestamp w = Some (register, patch) ->
      let run := create xsv_file rsf_file timestamp apply_flag w in
      fst run = Exit 1
      /\ fs (snd run) = fs w
      /\ fs (snd run) !! rsf_file = fs w !! rsf_file
      /\ register_of rsf_file (snd run) = Some register
      /\ register_of rsf_file w = Some register)
  /\ (forall patch_file,
         apply_inputs patch_file rsf_file w = Some (register, patch) ->
         let run := apply patch_file rsf_file w in
         fst run = Exit 1
         /\ fs (snd run) = fs w
         /\ fs (snd run) !! rsf_file = fs w !! rsf_file
         /\ register_of rsf_file (snd run) = Some register
         /\ register_of rsf_file w = Some register).
Proof.
  intros Herr Hne. destruct errors as [|e es]; [congruence|]. split.
  - intros xsv ts flag Hin run. subst run.
    rewrite (create_rejects _ _ _ flag _ _ _ _ _ Hin Herr). cbn [fst snd fs].
    pose proof (create_inputs_register _ _ _ _ _ _ Hin) as Hreg.
    repeat split; try reflexivity; exact Hreg.
  - intros pf Hin run. subst run.
    rewrite (apply_rejects _ _ _ _ _ _ _ Hin Herr). cbn [fst snd fs].
    pose proof (apply_inputs_register _ _ _ _ _ Hin) as Hreg.
    repeat split; try reflexivity; exact Hreg.
Qed.


End PatchClaims.

Lemma rejected_patch_commits_nothing_witness :
  fst (create (E := Demo.engine) "bad.csv" "register.rsf" Demo.stamp true
         Demo.start) = Exit 1
  /\ fs (snd (create (E := Demo.engine) "bad.csv" "register.rsf" Demo.stamp
                true Demo.start)) = Demo.files.
Proof.
  destruct (rejected_patch_commits_nothing (E := Demo.engine) "register.rsf"
              Demo.start Demo.ready Demo.bad_patch Demo.bad_errors)
    as [Hcreate _].
  - vm_compute. reflexivity.
  - discriminate.
  - destruct (Hcreate "bad.csv" Demo.stamp true) as (Hexit & Hfs & _).
    + vm_compute. reflexivity.
    + split; [exact Hexit | exact Hfs].
Defined.


Section PatchFrames.
Context {E : Engine}.

(** Without [--apply], [create] leaves every file as it was and none of its
    calls opens a file for appending or writes to one. *)
Lemma create_reads_only xsv rsf ts w :
  fs (snd (create xsv rsf ts false w)) = fs w
  /\ exists evs,
       trace (snd (create xsv rsf ts false w)) = trace w ++ evs
       /\ existsb commits evs = false.
Proof.
  cases; (split; [reflexivity|]); rewrite <- ?app_assoc; eexists;
    (split; [reflexivity | reflexivity]).
Qed.

(** A run of [create] that opens the log for appending is a run with
    [--apply] whose patch was judged without errors. *)
Lemma create_commits_only_accepted xsv rsf ts flag w evs :
  trace (snd (create xsv rsf ts flag w)) = trace w ++ evs ->
  existsb commits evs = true ->
  flag = true
  /\ exists r p,
       create_inputs xsv rsf ts w = Some (r, p)
       /\ errors_of r p = Some []
       /\ evs = create_events xsv rsf ++ commit_events rsf.
Proof.
  destruct flag.
  - intros Htrace Hcommits. split; [reflexivity|]. revert Htrace Hcommits.
    cases; rewrite <- ?app_assoc; intros Htrace;
      apply app_inv_head in Htrace; subst evs; try discriminate.
    intros _. eexists _, _. unfold create_inputs, errors_of.
    repeat match goal with H : _ = _ |- _ => rewrite H; simpl end.
    repeat split; reflexivity.
  - intros Htrace Hcommits.
    destruct (create_reads_only xsv rsf ts w) as (_ & evs' & Htrace' & Hnone).
    rewrite Htrace' in Htrace. apply app_inv_head in Htrace. subst evs'.
    congruence.
Qed.

(** The same for [apply], which always commits what was accepted. *)
Lemma apply_commits_only_accepted patch_file rsf w evs :
  trace (snd (apply patch_file rsf w)) = trace w ++ evs ->
  existsb commits evs = true ->
  exists r p,
    apply_inputs patch_file rsf w = Some (r, p)
    /\ errors_of r p = Some []
    /\ evs = apply_events patch_file rsf ++ commit_events rsf.
Proof.
  cases; rewrite <- ?app_assoc; intros Htrace;
    apply app_inv_head in Htrace; subst evs; try discriminate.
  intros _. eexists _, _. unfold apply_inputs, errors_of.
  repeat match goal with H : _ = _ |- _ => rewrite H; simpl end.
  repeat split; reflexivity.
Qed.

(** C10. Without [--apply], [create] only reads.  For every input, a call
    of [create] with [apply_flag] false leaves every file, the log among
    them, as it was, and none of its calls opens a file for appending or
    writes to one; when the patch is judged without errors it returns
    [patch.commands].  The log is written by [_apply] alone: a run of
    [create] that opens a file for appending has [apply_flag] true, a run of
    [create] or [apply] that does so has judged its patch without errors, and
    what it then does is [_apply]'s open and write on the log. *)
Theorem create_without_apply_only_reads (xsv_file rsf_file timestamp : string)
  (w : world) :
  let run := create xsv_file rsf_file timestamp false w in
  fs (snd run) = fs w
  /\ (exists evs, trace (snd run) = trace w ++ evs
                  /\ existsb commits evs = false)
  /\ (forall register patch,
         create_inputs xsv_file rsf_file timestamp w = Some (register, patch) ->
         errors_of register patch = Some [] ->
         fst run = Return (Commands (Patch_commands patch)))
  /\ (forall apply_flag evs,
         trace (snd (create xsv_file rsf_file timestamp apply_flag w))
         = trace w ++ evs ->
         existsb commits evs = true ->
         apply_flag = true
         /\ exists register patch,
              create_inputs xsv_file rsf_file timestamp w
              = Some (register, patch)
              /\ errors_of register patch = Some []
              /\ evs = create_events xsv_file rsf_file
                       ++ commit_events rsf_file)
  /\ (forall patch_file evs,
         trace (snd (apply patch_file rsf_file w)) = trace w ++ evs ->
         existsb commits evs = true ->
         exists register patch,
           apply_inputs patch_file rsf_file w = Some (register, patch)
           /\ errors_of register patch = Some []
           /\ evs = apply_events patch_file rsf_file
                    ++ commit_events rsf_file).
Proof.
  intros run. subst run.
  destruct (create_reads_only xsv_file rsf_file timestamp w) as [Hfs Hevs].
  split; [exact Hfs|]. split; [exact Hevs|]. split.
  - intros r p Hin Herr. by rewrite (create_accepts _ _ _ false _ _ _ Hin Herr).
  - split.
    + intros flag evs. apply create_commits_only_accepted.
    + intros pf evs. apply apply_commits_only_accepted.
Qed.

End PatchFrames.

Lemma create_without_apply_only_reads_witness :
  fst (create (E := Demo.engine) "rows.csv" "register.rsf" Demo.stamp false
         Demo.start)
  = Return (@Commands Demo.engine (Registers.p_commands Demo.patch))
  /\ fs (snd (create (E := Demo.engine) "rows.csv" "register.rsf" Demo.stamp
                false Demo.start)) = Demo.files.
Proof.
  destruct (create_without_apply_only_reads (E := Demo.engine) "rows.csv"
              "register.rsf" Demo.stamp Demo.start) as (Hfs & _ & Hret & _).
  split; [|exact Hfs].
  apply (Hret Demo.ready Demo.patch); vm_compute; reflexivity.
Defined.

Section PatchReadiness.
Context {E : Engine}.





(** What [utils.error] leaves of a process stopped at the readiness check. *)
Lemma utils_error_run msg w :
  utils_error msg w
  = (Exit 1,
     World (fs w) (stdout w ++ [Echoed msg (Some "bright_red")])
       (trace w ++ [EvExit 1]) (clock w)).
Proof. reflexivity. Qed.




End PatchReadiness.


(** ** The engine *)

Module EngineFacts.
Import Registers.

Section Hashed.
Variable hash : string -> string.

Lemma validate_from_cons r position c cmds :
  validate_from hash r position (c :: cmds)
  = (map (Violation position) (fst (judge hash r c))
     ++ fst (validate_from hash (snd (judge hash r c)) (S position) cmds),
     snd (validate_from hash (snd (judge hash r c)) (S position) cmds)).
Proof.
  cbn [validate_from]. destruct (judge hash r c) as [whys r']. cbn [fst snd].
  by destruct (validate_from hash r' (S position) cmds).
Qed.

Lemma flat_map_seq_S {A} (f : nat -> list A) (n : nat) :
  flat_map f (seq 1 n) = flat_map (fun i => f (S i)) (seq 0 n).
Proof.
  rewrite <- seq_shift. induction (seq 0 n) as [|i l IH]; simpl;
    [reflexivity | by rewrite IH].
Qed.

(** The validator stops at no error: its errors are the violations of every
    command, each judged against the register as the commands before it
    left it. *)
Lemma validate_from_errors r position cmds :
  fst (validate_from hash r position cmds)
  = flat_map
      (fun i =>
         match cmds !! i with
         | Some c =>
             map (Violation (position + i))
               (fst (judge hash (register_at hash r cmds i) c))
         | None => []
         end)
      (seq 0 (List.length cmds)).
Proof.
  revert r position. induction cmds as [|c cmds IH]; intros r position.
  - reflexivity.
  - rewrite validate_from_cons. cbn [fst List.length seq flat_map].
    rewrite Nat.add_0_r. f_equal.
    rewrite flat_map_seq_S, IH. apply flat_map_ext. intros i.
    cbn [lookup list_lookup]. unfold register_at. cbn [take fold_left].
    by rewrite Nat.add_succ_r.
Qed.

Lemma validate_collects_all r cmds :
  fst (validate_from hash r 0 cmds) = all_violations hash r cmds.
Proof. apply validate_from_errors. Qed.

(** [register.apply] returns the violations of every command, and leaves
    the register alone when there is one. *)
Lemma register_apply_errors r p :
  fst (register_apply hash r p) = all_violations hash r (p_commands p).
Proof.
  unfold register_apply. rewrite <- validate_collects_all.
  destruct (validate_from hash r 0 (p_commands p)) as [[|e es] r']; reflexivity.
Qed.

Lemma register_apply_rejects r p :
  fst (register_apply hash r p) <> [] -> snd (register_apply hash r p) = r.
Proof.
  unfold register_apply.
  destruct (validate_from hash r 0 (p_commands p)) as [[|e es] r'];
    [simpl; congruence | reflexivity].
Qed.

(** A violation of any command of the patch is among the errors. *)
Lemma violation_reported r p position c why :
  p_commands p !! position = Some c ->
  In why (fst (judge hash (register_at hash r (p_commands p) position) c)) ->
  In (Violation position why) (fst (register_apply hash r p)).
Proof.
  intros Hc Hwhy. rewrite register_apply_errors. unfold all_violations.
  apply in_flat_map. exists position. split.
  - apply in_seq. apply lookup_lt_Some in Hc. lia.
  - unfold violations_at. rewrite Hc. by apply in_map.
Qed.

(** The readiness check refuses with [SchemaNotReadyError], and only a
    schema that is not ready. *)
Lemma check_readiness_refuses r e :
  check_readiness r = Err e ->
  e = SchemaNotReadyError /\ isReady (schema r) = false.
Proof.
  unfold check_readiness. destruct (isReady (schema r)); [discriminate|].
  intros H. inversion H. by split.
Qed.

(** An entry replayed before the schema is ready stops the replay with
    [SchemaNotReadyError]. *)
Lemma replay_entry_unready r position key timestamp hashes cmds :
  isReady (schema r) = false ->
  replay hash r position (Cmd AppendEntry [key; timestamp; hashes] :: cmds)
  = Err SchemaNotReadyError.
Proof. intros H. simpl. unfold exec. simpl. by rewrite H. Qed.

(** The replay is a left fold: a log replays as its first part and then its
    second from where the first left the register. *)
Lemma replay_app r position cmds more :
  replay hash r position (cmds ++ more)
  = match replay hash r position cmds with
    | Ok r' => replay hash r' (position + List.length cmds) more
    | Err e => Err e
    end.
Proof.
  revert r position. induction cmds as [|c cmds IH]; intros r position; simpl.
  - by rewrite Nat.add_0_r.
  - destruct (exec hash r c) as [why|r']; [reflexivity|].
    rewrite IH. by rewrite Nat.add_succ_r.
Qed.

(** A patch judged without errors replays from the register it was judged
    against to the register that [register.apply] leaves. *)
Lemma accepted_patch_replays r position position' cmds :
  fst (validate_from hash r position cmds) = [] ->
  replay hash r position' cmds
  = Ok (snd (validate_from hash r position cmds)).
Proof.
  revert r position position'.
  induction cmds as [|c cmds IH]; intros r position position'.
  - reflexivity.
  - rewrite validate_from_cons. cbn [fst snd]. intros H.
    apply app_eq_nil in H as [Hc Hrest]. apply map_eq_nil in Hc.
    simpl. unfold judge in *.
    destruct (check r c) as [|why whys]; [|discriminate].
    destruct (exec hash r c) as [why|r']; [discriminate|].
    cbn [snd] in *. by apply IH with (position := S position).
Qed.

End Hashed.

End EngineFacts.

(** ** The tabular deserialiser *)

Section PatchRows.
Context {E : Engine}.

(** Rows that the deserialiser refuses stop [create] before a patch is
    built: the error is raised and no file is touched. *)
Lemma create_refused_rows xsv rsf ts flag w log cmds r rows e :
  fs w !! rsf = Some log ->
  rsf_parse log = Ok cmds ->
  Register_init cmds = Ok r ->
  check_readiness r = Ok tt ->
  fs w !! xsv = Some rows ->
  xsv_deserialise rows (Register_schema r) = Err e ->
  create xsv rsf ts flag w
  = (Raise (Registers e),
     World (fs w) (stdout w)
       (trace w ++ load_events rsf ++ [EvOpen xsv ModeRead; EvDeserialise])
       (clock w))
  /\ create_command xsv rsf ts flag w
     = (Exit 1,
        World (fs w) (stdout w ++ [Echoed (exn_str e) (Some "bright_red")])
          (trace w ++ load_events rsf
           ++ [EvOpen xsv ModeRead; EvDeserialise; EvExit 1])
          (clock w)).
Proof.
  intros Hlog Hparse Hinit Hready Hrows Hrefused.
  assert (Hcreate : create xsv rsf ts flag w
                    = (Raise (Registers e),
                       World (fs w) (stdout w)
                         (trace w ++ load_events rsf
                          ++ [EvOpen xsv ModeRead; EvDeserialise])
                         (clock w))).
  { run. by rewrite <- !app_assoc. }
  split; [exact Hcreate|].
  unfold create_command, try_except, bind. rewrite Hcreate.
  rewrite utils_error_run. cbn [fs stdout trace clock].
  by rewrite <- !app_assoc.
Qed.

End PatchRows.

Module XsvFacts.
Import Registers TextFacts.

Lemma detect_tab (header : string) :
  occurs TAB header = true -> detect_delimiter header = Ok TAB.
Proof. unfold detect_delimiter. by intros ->. Qed.

Lemma detect_comma (header : string) :
  occurs TAB header = false -> occurs "," header = true ->
  detect_delimiter header = Ok ","%char.
Proof. unfold detect_delimiter. by intros -> ->. Qed.

Lemma detect_semicolon (header : string) :
  occurs TAB header = false -> occurs "," header = false ->
  occurs ";" header = true ->
  detect_delimiter header
  = Err (FormatError "';' separates the values of a field, not columns").
Proof. unfold detect_delimiter. by intros -> -> ->. Qed.

(** The delimiter is looked for in the header line alone: a header that is
    refused refuses the file, whatever its rows. *)
Lemma deserialise_refused_header (header rows : string) (s : Schema) e :
  occurs LF header = false ->
  detect_delimiter header = Err e ->
  deserialise (header +:+ String LF rows) s = Err e.
Proof.
  intros Hlf Hdetect. unfold deserialise.
  rewrite lines_append by exact Hlf. by rewrite Hdetect.
Qed.

Lemma deserialise_refused_header_only (header : string) (s : Schema) e :
  occurs LF header = false ->
  detect_delimiter header = Err e ->
  deserialise header s = Err e.
Proof.
  intros Hlf Hdetect. unfold deserialise.
  destruct header as [|a header]; [discriminate|].
  rewrite lines_whole by (exact Hlf || discriminate). by rewrite Hdetect.
Qed.

Lemma joined_header (names : list string) :
  2 <= List.length names ->
  exists name next rest, names = name :: next :: rest.
Proof.
  destruct names as [|name [|next rest]]; simpl; try lia. eauto.
Qed.

End XsvFacts.

(** C9. The delimiter is tab or comma, read off the header line, and [;]
    is refused.  A header of two names or more joined by tabs gives tab; one
    joined by commas, no name holding a tab, gives comma.  A file whose
    header is two names or more joined by [;], no name holding a tab, a comma
    or a newline, fails to deserialise with a [FormatError], whatever its
    rows and its schema; [create] then raises that error before a patch is
    built, no file touched, and [create_command] shows it and leaves with
    status 1. *)
Theorem semicolon_delimiter_is_rejected (names : list string) :
  2 <= List.length names ->
  (Forall (fun name => Registers.occurs TAB name = false) names ->
   Registers.detect_delimiter (Registers.join TAB names) = Ok TAB
   /\ Registers.detect_delimiter (Registers.join "," names) = Ok ","%char)
  /\ (Forall (fun name => Registers.occurs TAB name = false
                          /\ Registers.occurs "," name = false
                          /\ Registers.occurs LF name = false) names ->
      let header := Registers.join ";" names in
      exists msg,
        (forall schema,
            Registers.deserialise header schema = Err (FormatError msg))
        /\ (forall rows schema,
               Registers.deserialise (header +:+ String LF rows) schema
               = Err (FormatError msg))
        /\ (forall hash xsv_file rsf_file timestamp apply_flag w rows register,
               register_of (E := registers_engine hash) rsf_file w
               = Some register ->
               Registers.isReady (Registers.schema register) = true ->
               fs w !! xsv_file = Some (header +:+ String LF rows) ->
               fst (create (E := registers_engine hash) xsv_file rsf_file
                      timestamp apply_flag w)
               = Raise (Registers (FormatError msg))
               /\ fs (snd (create (E := registers_engine hash) xsv_file
                             rsf_file timestamp apply_flag w)) = fs w
               /\ fst (create_command (E := registers_engine hash) xsv_file
                         rsf_file timestamp apply_flag w) = Exit 1
               /\ stdout (snd (create_command (E := registers_engine hash)
                                 xsv_file rsf_file timestamp apply_flag w))
                  = stdout w ++ [Echoed msg (Some "bright_red")])).
Proof.
  intros Hlen.
  destruct (XsvFacts.joined_header names Hlen)
    as (name & next & rest & ->).
  split.
  - intros Hnames. split.
    + apply XsvFacts.detect_tab. apply TextFacts.occurs_join_sep.
    + apply XsvFacts.detect_comma.
      * by apply TextFacts.occurs_join.
      * apply TextFacts.occurs_join_sep.
  - intros Hnames header.
    assert (Htab : Registers.occurs TAB header = false).
    { apply TextFacts.occurs_join; [discriminate|].
      eapply Forall_impl; [exact Hnames|]. by intros n (H & _ & _). }
    assert (Hcomma : Registers.occurs "," header = false).
    { apply TextFacts.occurs_join; [discriminate|].
      eapply Forall_impl; [exact Hnames|]. by intros n (_ & H & _). }
    assert (Hlf : Registers.occurs LF header = false).
    { apply TextFacts.occurs_join; [discriminate|].
      eapply Forall_impl; [exact Hnames|]. by intros n (_ & _ & H). }
    assert (Hsemi : Registers.occurs ";" header = true)
      by apply TextFacts.occurs_join_sep.
    pose proof (XsvFacts.detect_semicolon header Htab Hcomma Hsemi) as Hdetect.
    eexists. split; [|split].
    + intros schema.
      by apply XsvFacts.deserialise_refused_header_only.
    + intros rows schema.
      by apply XsvFacts.deserialise_refused_header.
    + intros hash xsv rsf ts flag w rows r Hreg Hready Hrows.
      unfold register_of in Hreg. simplify_option_eq.
      repeat match goal with H : ok _ = Some _ |- _ => apply ok_Some in H end.
      edestruct (create_refused_rows (E := registers_engine hash) xsv rsf ts
                   flag w) as [Hcreate Hcommand]; try eassumption.
      * simpl. unfold Registers.check_readiness. by rewrite Hready.
      * simpl. by apply XsvFacts.deserialise_refused_header.
      * rewrite Hcreate, Hcommand. by repeat split.
Qed.

Lemma semicolon_delimiter_is_rejected_witness :
  fst (create_command (E := Demo.engine) "semicolon.csv" "register.rsf"
         Demo.stamp true Demo.start) = Exit 1
  /\ Registers.detect_delimiter (Registers.join "," ["key"; "name"])
     = Ok ","%char.
Proof.
  destruct (semicolon_delimiter_is_rejected ["key"; "name"]) as [Hdetect Hsemi].
  - simpl. lia.
  - split; [|apply Hdetect; by repeat constructor].
    destruct Hsemi as (msg & _ & _ & Hcreate); [by repeat constructor|].
    edestruct (Hcreate Demo.plain "semicolon.csv" "register.rsf" Demo.stamp
                 true Demo.start) as (_ & _ & Hexit & _).
    + vm_compute. reflexivity.
    + reflexivity.
    + vm_compute. reflexivity.
    + exact Hexit.
Defined.

(** ** The example *)

Module JudgeFacts.
Import Registers TextFacts.

Section Hashed.
Variable hash : string -> string.

(** An item that conforms and is new is accepted and held under its hash. *)
Lemma judge_add_item r item :
  isReady (schema r) = true ->
  flat_map (field_violations (schema r)) (item_fields item)
  ++ key_violations (schema r) (item_fields item) = [] ->
  items r !! hash item = None ->
  judge hash r (Cmd AddItem [item])
  = ([], MkRegister (schema r) (entries r) (<[hash item := item]> (items r))
           (S (commandCount r))).
Proof.
  intros Hready Hnone Hnew. unfold judge, check, exec.
  cbn [cmd_op cmd_fields]. by rewrite Hready, Hnone, Hnew.
Qed.

(** The first entry of a key, referring to an item that is held, is
    accepted. *)
Lemma judge_append_entry r key timestamp h :
  isReady (schema r) = true ->
  key <> "" ->
  occurs ";" h = false ->
  is_Some (items r !! h) ->
  entries r !! key = None ->
  judge hash r (Cmd AppendEntry [key; timestamp; h])
  = ([], MkRegister (schema r) (<[key := MkEntry timestamp [h]]> (entries r))
           (items r) (S (commandCount r))).
Proof.
  intros Hready Hkey Hone Hheld Hnew. unfold judge, check, exec.
  cbn [cmd_op cmd_fields]. rewrite Hready.
  apply String.eqb_neq in Hkey. rewrite Hkey.
  rewrite split_whole by exact Hone. cbn [List.filter].
  rewrite bool_decide_eq_true_2 by exact Hheld. cbn [negb map app].
  by rewrite Hnew.
Qed.

Lemma example_validates :
  hash Demo.alpha <> hash Demo.beta ->
  occurs ";" (hash Demo.alpha) = false ->
  occurs ";" (hash Demo.beta) = false ->
  validate_from hash Demo.ready 0 (Demo.commands hash)
  = ([], Demo.patched hash).
Proof.
  intros Hne Ha Hb. unfold Demo.commands. cbn [validate_from].
  rewrite judge_add_item; [|reflexivity|reflexivity|apply lookup_empty].
  cbn [schema entries items commandCount].
  rewrite judge_append_entry;
    [|reflexivity|discriminate|exact Ha| |apply lookup_empty].
  2:{ cbn [items]. rewrite lookup_insert_eq. eauto. }
  cbn [schema entries items commandCount].
  rewrite judge_add_item; [|reflexivity|reflexivity|].
  2:{ cbn [items]. rewrite lookup_insert_ne by exact Hne. apply lookup_empty. }
  cbn [schema entries items commandCount].
  rewrite judge_append_entry; [|reflexivity|discriminate|exact Hb| |].
  2:{ cbn [items]. rewrite lookup_insert_eq. eauto. }
  2:{ cbn [entries]. rewrite lookup_insert_ne by discriminate.
      apply lookup_empty. }
  reflexivity.
Qed.

Lemma example_values :
  hash Demo.alpha <> hash Demo.beta ->
  value (Demo.patched hash) "1" "name" = Some "Alpha"
  /\ value (Demo.patched hash) "2" "name" = Some "Beta"
  /\ value (Demo.patched hash) "1" "key" = Some "1"
  /\ value (Demo.patched hash) "2" "key" = Some "2".
Proof.
  intros Hne. unfold value, Demo.patched. cbn [entries items].
  rewrite lookup_insert_eq.
  rewrite (lookup_insert_ne _ "2" "1") by discriminate.
  rewrite lookup_insert_eq. cbn [mbind option_bind e_hashes head].
  rewrite lookup_insert_eq.
  rewrite lookup_insert_ne by (intros H; by apply Hne).
  rewrite lookup_insert_eq. by repeat split.
Qed.

Lemma example_keys key :
  is_Some (entries (Demo.patched hash) !! key) <-> key = "1" \/ key = "2".
Proof.
  unfold Demo.patched. cbn [entries].
  rewrite !lookup_insert_is_Some, lookup_empty.
  split.
  - intros [H|[_ [H|[_ [x H]]]]]; [by right | by left | discriminate].
  - intros [->| ->]; [right; split; [discriminate | by left] | by left].
Qed.

End Hashed.

End JudgeFacts.

(** C6. The example.  With the schema [{key: string(1), name: string(1)}],
    the rows [key,name / 1,Alpha / 2,Beta] and the timestamp
    [2024-01-01T00:00:00Z], for every hash that tells the two items apart and
    puts no [;] in their hashes: [create] builds a patch of exactly four
    commands, add-item, append-entry, add-item, append-entry, and returns
    them; applying the patch to the register of the log, ready and empty,
    gives no error and the entries of the keys [1] and [2] and of no other,
    whose names are [Alpha] and [Beta]. *)
Theorem example_rows_patch (hash : string -> string) :
  hash Demo.alpha <> hash Demo.beta ->
  Registers.occurs ";" (hash Demo.alpha) = false ->
  Registers.occurs ";" (hash Demo.beta) = false ->
  let patch :=
    Registers.MkPatch Demo.schema (Demo.commands hash) (Some Demo.stamp) in
  Registers.isReady (Registers.schema Demo.ready) = true
  /\ Registers.entries Demo.ready = ∅
  /\ create_inputs (E := registers_engine hash) "rows.csv" "register.rsf"
       Demo.stamp Demo.start = Some (Demo.ready, patch)
  /\ map Registers.cmd_op (Demo.commands hash)
     = [Registers.AddItem; Registers.AppendEntry;
        Registers.AddItem; Registers.AppendEntry]
  /\ fst (create (E := registers_engine hash) "rows.csv" "register.rsf"
            Demo.stamp false Demo.start)
     = Return (@Commands (registers_engine hash) (Demo.commands hash))
  /\ Registers.register_apply hash Demo.ready patch = ([], Demo.patched hash)
  /\ Registers.value (Demo.patched hash) "1" "name" = Some "Alpha"
  /\ Registers.value (Demo.patched hash) "2" "name" = Some "Beta"
  /\ (forall key,
         is_Some (Registers.entries (Demo.patched hash) !! key)
         <-> key = "1" \/ key = "2").
Proof.
  intros Hne Ha Hb patch.
  assert (Hin : create_inputs (E := registers_engine hash) "rows.csv"
                  "register.rsf" Demo.stamp Demo.start
                = Some (Demo.ready, patch)) by (vm_compute; reflexivity).
  assert (Happly : Registers.register_apply hash Demo.ready patch
                   = ([], Demo.patched hash)).
  { unfold Registers.register_apply, patch. cbn [Registers.p_commands].
    by rewrite JudgeFacts.example_validates. }
  destruct (JudgeFacts.example_values hash Hne) as (H1 & H2 & _).
  split; [reflexivity|]. split; [reflexivity|]. split; [exact Hin|].
  split; [reflexivity|]. split.
  - rewrite (create_accepts (E := registers_engine hash) _ _ _ false _ _ _ Hin);
      [reflexivity|].
    unfold errors_of. simpl. by rewrite Happly.
  - split; [exact Happly|]. split; [exact H1|]. split; [exact H2|].
    apply JudgeFacts.example_keys.
Qed.

Lemma example_rows_patch_witness :
  fst (create (E := Demo.engine) "rows.csv" "register.rsf" Demo.stamp false
         Demo.start)
  = Return (@Commands Demo.engine (Demo.commands Demo.plain))
  /\ Registers.register_apply Demo.plain Demo.ready
       (Registers.MkPatch Demo.schema (Demo.commands Demo.plain)
          (Some Demo.stamp))
     = ([], Demo.patched Demo.plain).
Proof.
  destruct (example_rows_patch Demo.plain)
    as (_ & _ & _ & _ & Hcreate & Happly & _).
  - discriminate.
  - reflexivity.
  - reflexivity.
  - split; [exact Hcreate | exact Happly].
Defined.

(** ** The default of [--timestamp] *)

(** What importing the module computes: the default of [--timestamp] is the
    time of the import, formatted. *)
Lemma import_patch_run (w : world) :
  import_patch w = (Return (PatchModule (format_timestamp (clock w))), w).
Proof. reflexivity. Qed.

Lemma shaped_app p1 p2 s1 s2 :
  shaped p1 s1 = true -> shaped p2 s2 = true ->
  shaped (p1 ++ p2) (s1 +:+ s2) = true.
Proof.
  revert s1.
  induction p1 as [|[c|] p1 IH]; intros [|a s1]; simpl; try discriminate.
  - auto.
  - intros H1 H2. apply andb_true_iff in H1 as [Ha H1].
    change (String a s1 +:+ s2) with (String a (s1 +:+ s2)). simpl.
    rewrite Ha. simpl. by apply IH.
  - intros H1 H2. apply andb_true_iff in H1 as [Ha H1].
    change (String a s1 +:+ s2) with (String a (s1 +:+ s2)). simpl.
    rewrite Ha. simpl. by apply IH.
Qed.

Lemma digit_is_digit d : d < 10 -> Registers.is_digit (digit d) = true.
Proof. intros H. do 10 (destruct d as [|d]; [reflexivity|]). lia. Qed.

Lemma fixed_shaped width n :
  shaped (digits width) (snd (fixed width n)) = true.
Proof.
  revert n. induction width as [|width IH]; intros n; [reflexivity|].
  cbn [fixed]. specialize (IH (n / 10)).
  destruct (fixed width (n / 10)) as [q s]. cbn [snd] in *.
  unfold digits in *.
  change (repeat None (S width)) with (@None ascii :: repeat None width).
  rewrite repeat_cons. apply shaped_app; [exact IH|]. cbn [shaped].
  rewrite digit_is_digit; [reflexivity|]. apply Nat.mod_upper_bound. lia.
Qed.

Lemma fixed_quotient width n : fst (fixed width n) = n / 10 ^ width.
Proof.
  revert n. induction width as [|width IH]; intros n.
  - cbn [fixed fst]. change (10 ^ 0) with 1. by rewrite Nat.div_1_r.
  - cbn [fixed]. specialize (IH (n / 10)).
    destruct (fixed width (n / 10)) as [q s]. cbn [fst] in *.
    rewrite IH. rewrite Nat.pow_succ_r', Nat.Div0.div_div. reflexivity.
Qed.

(** A number that fits in the width is written in that many digits. *)
Lemma pad_shaped width n :
  n < 10 ^ width -> shaped (digits width) (pad width n) = true.
Proof.
  intros H. unfold pad. pose proof (fixed_shaped width n) as Hs.
  pose proof (fixed_quotient width n) as Hq.
  destruct (fixed width n) as [q s]. cbn [fst snd] in *.
  rewrite Hq, Nat.div_small by exact H. exact Hs.
Qed.

Lemma pad2_shaped n : n < 100 -> shaped (digits 2) (pad 2 n) = true.
Proof. intros H. apply pad_shaped. change (10 ^ 2) with (10 * 10). lia. Qed.

Lemma pad4_shaped n : n < 100 * 100 -> shaped (digits 4) (pad 4 n) = true.
Proof.
  intros H. apply pad_shaped.
  replace (10 ^ 4) with (100 * 100); [exact H|].
  change 4 with (2 + 2). rewrite Nat.pow_add_r. reflexivity.
Qed.

(** The timestamp of a point in time has the RFC3339 shape. *)
Lemma format_timestamp_rfc3339 t :
  valid_datetime t = true -> rfc3339 (format_timestamp t) = true.
Proof.
  unfold valid_datetime. rewrite !andb_true_iff.
  rewrite !Nat.leb_le, Nat.ltb_lt.
  intros ((((((((Hy1 & Hy) & Hm1) & Hm) & Hd1) & Hd) & Hh) & Hmi) & Hs).
  unfold rfc3339, format_timestamp.
  repeat (apply shaped_app;
          [first [apply pad4_shaped | apply pad2_shaped | reflexivity]; lia|]).
  reflexivity.
Qed.

(** What click hands to [create_command] when [--timestamp] is not given:
    the default of the module, whatever the clock reads. *)
Lemma patch_create_default {E : Engine} m xsv_file rsf_file apply_flag w log :
  fs w !! rsf_file = Some log ->
  patch_create m xsv_file rsf_file None apply_flag w
  = create_command xsv_file rsf_file (timestamp_default m) apply_flag w.
Proof.
  intros Hlog. unfold patch_create, click_path_exists, bind.
  by rewrite Hlog.
Qed.

(** With no file at the [--rsf] path neither command body runs: click stops
    the process with the status 2, nothing is opened, shown or written. *)
Lemma missing_rsf_is_refused {E : Engine} m xsv_file patch_file rsf_file
  timestamp apply_flag w :
  fs w !! rsf_file = None ->
  patch_create m xsv_file rsf_file timestamp apply_flag w = exit 2 w
  /\ patch_apply patch_file rsf_file w = exit 2 w
  /\ fs (snd (exit (A := unit) 2 w)) = fs w
  /\ stdout (snd (exit (A := unit) 2 w)) = stdout w
  /\ trace (snd (exit (A := unit) 2 w)) = trace w ++ [EvExit 2].
Proof.
  intros Hlog.
  unfold patch_create, patch_apply, click_path_exists, bind.
  rewrite Hlog. by repeat split.
Qed.

(** C7.  The code at the failing input.  [patch.py] is imported at
    [2024-01-01T00:00:00Z]; the command is run a second later, the clock
    reading [2024-01-01T00:00:01Z], without [--timestamp].  The patch is
    stamped with the time of the import: the run is the run of
    [create_command] with [2024-01-01T00:00:00Z], it is not the run with the
    time of the invocation, and the entries shown carry
    [2024-01-01T00:00:00Z]. *)
Theorem default_timestamp_is_stale :
  let imported := Demo.start in
  let invoked := later Demo.a_second_later Demo.start in
  let m := PatchModule (format_timestamp (clock imported)) in
  import_patch imported = (Return m, imported)
  /\ format_timestamp (clock imported) = "2024-01-01T00:00:00Z"
  /\ format_timestamp (clock invoked) = "2024-01-01T00:00:01Z"
  /\ patch_create (E := Demo.engine) m "rows.csv" "register.rsf" None false
       invoked
     = create_command (E := Demo.engine) "rows.csv" "register.rsf"
         "2024-01-01T00:00:00Z" false invoked
  /\ patch_create (E := Demo.engine) m "rows.csv" "register.rsf" None false
       invoked
     <> create_command (E := Demo.engine) "rows.csv" "register.rsf"
          (format_timestamp (clock invoked)) false invoked
  /\ map text
       (stdout (snd (patch_create (E := Demo.engine) m "rows.csv"
                       "register.rsf" None false invoked)))
     = map Registers.serialise_command
         [Registers.Cmd Registers.AddItem ["key=1&name=Alpha"];
          Registers.Cmd Registers.AppendEntry
            ["1"; "2024-01-01T00:00:00Z"; "key=1&name=Alpha"];
          Registers.Cmd Registers.AddItem ["key=2&name=Beta"];
          Registers.Cmd Registers.AppendEntry
            ["2"; "2024-01-01T00:00:00Z"; "key=2&name=Beta"]].
Proof.
  intros imported invoked m.
  split; [reflexivity|]. split; [by vm_compute|]. split; [by vm_compute|].
  split; [|split].
  - subst m. erewrite patch_create_default; [|by vm_compute]. reflexivity.
  - intros H. vm_compute in H. discriminate H.
  - vm_compute. reflexivity.
Qed.

(** ** The replay *)

Module ReplayFacts.
Import Registers Replay.

Section Hashed.
Variable hash : string -> string.





End Hashed.
End ReplayFacts.



(** ** More of [patch.py] *)

Section PatchMore.
Context {E : Engine}.

(** A dry run that returns commands has judged a patch without errors, and
    the commands are the patch's. *)
Lemma create_dry_run_inputs xsv rsf ts w cmds w' :
  create xsv rsf ts false w = (Return (Commands cmds), w') ->
  exists r p,
    create_inputs xsv rsf ts w = Some (r, p)
    /\ errors_of r p = Some []
    /\ cmds = Patch_commands p.
Proof.
  cases; intros H; try discriminate H. injection H as <- <-.
  eexists _, _. unfold create_inputs, errors_of.
  repeat match goal with H : _ = _ |- _ => rewrite H; simpl end.
  by repeat split.
Qed.

(** [create] returns the summary with [--apply] and the commands without. *)
Lemma create_result_kind xsv rsf ts flag w res w' :
  create xsv rsf ts flag w = (Return res, w') ->
  if flag then exists p, res = Summary (length (Patch_commands p))
  else exists cmds, res = Commands cmds.
Proof.
  destruct flag; cases; intros H; try discriminate H;
    injection H as <- <-; eauto.
Qed.

Lemma apply_result_kind patch_file rsf w res w' :
  apply patch_file rsf w = (Return res, w') ->
  exists p, res = Summary (length (Patch_commands p)).
Proof.
  cases; intros H; try discriminate H; injection H as <- <-; eauto.
Qed.

Lemma create_raises xsv rsf ts flag w e w' :
  create xsv rsf ts flag w = (Raise e, w') ->
  forall msg, e <> BuiltinTypeError msg.
Proof.
  destruct flag; cases; intros H; try discriminate H;
    injection H as <- <-; discriminate.
Qed.

Lemma apply_raises patch_file rsf w e w' :
  apply patch_file rsf w = (Raise e, w') ->
  forall msg, e <> BuiltinTypeError msg.
Proof.
  cases; intros H; try discriminate H; injection H as <- <-; discriminate.
Qed.

Lemma for_each_echo (cmds : list Command) w :
  for_each cmds (fun obj => echo (cmd_str obj)) w
  = (Return tt,
     World (fs w) (stdout w ++ map (fun c => Echoed (cmd_str c) None) cmds)
       (trace w) (clock w)).
Proof. apply (for_each_secho cmd_str None). Qed.

(** A run of [create] that does not return a summary has written nothing. *)
Lemma create_fails_clean xsv rsf ts flag w :
  (forall n, fst (create xsv rsf ts flag w) <> Return (Summary n)) ->
  fs (snd (create xsv rsf ts flag w)) = fs w.
Proof.
  destruct flag; cases; intros H; try reflexivity. exfalso. by eapply H.
Qed.

Lemma apply_fails_clean patch_file rsf w :
  (forall n, fst (apply patch_file rsf w) <> Return (Summary n)) ->
  fs (snd (apply patch_file rsf w)) = fs w.
Proof.
  cases; intros H; try reflexivity. exfalso. by eapply H.
Qed.

(** What [create] returns and leaves in the files depends on the files
    alone. *)
Lemma create_reads_files xsv rsf ts flag w1 w2 :
  fs w1 = fs w2 ->
  fst (create xsv rsf ts flag w1) = fst (create xsv rsf ts flag w2)
  /\ fs (snd (create xsv rsf ts flag w1))
     = fs (snd (create xsv rsf ts flag w2)).
Proof.
  destruct w1 as [f1 o1 t1 c1], w2 as [f2 o2 t2 c2]. cbn [fs]. intros ->.
  destruct flag; cases; by split.
Qed.

(** X1. [--apply] commits the dry run.  When [create] without [--apply]
    returns a list of commands, [create] with [--apply] on the same input
    returns their number and appends to the log exactly their texts, each
    with a newline, in their order; the terminal is as it was. *)
Theorem apply_flag_commits_the_dry_run (xsv_file rsf_file timestamp : string)
  (w w' : world) (cmds : list Command) :
  create xsv_file rsf_file timestamp false w = (Return (Commands cmds), w') ->
  w' = World (fs w) (stdout w) (trace w ++ create_events xsv_file rsf_file)
         (clock w)
  /\ create xsv_file rsf_file timestamp true w
     = (Return (Summary (length cmds)),
        World (<[rsf_file := default "" (fs w !! rsf_file)
                             +:+ String.concat ""
                                   (map (fun cmd => cmd_str cmd +:+ nl) cmds)]>
                 (fs w))
          (stdout w) (trace w' ++ commit_events rsf_file) (clock w)).
Proof.
  intros Hdry.
  destruct (create_dry_run_inputs _ _ _ _ _ _ Hdry) as (r & p & Hin & Herr & ->).
  rewrite (create_accepts _ _ _ false _ _ _ Hin Herr) in Hdry.
  injection Hdry as <-.
  rewrite (create_accepts _ _ _ true _ _ _ Hin Herr). cbn [trace].
  split; [reflexivity|]. by rewrite <- app_assoc.
Qed.

(** X2. [--apply] changes nothing of a run that fails.  When [create]
    without [--apply] does not return commands (it raises, or exits on
    validation errors), [create] with [--apply] does the same. *)
Theorem apply_flag_is_idle_on_failure (xsv_file rsf_file timestamp : string)
  (w : world) :
  (forall cmds,
      fst (create xsv_file rsf_file timestamp false w)
      <> Return (Commands cmds)) ->
  create xsv_file rsf_file timestamp true w
  = create xsv_file rsf_file timestamp false w.
Proof.
  cases; intros H; try reflexivity. exfalso. by eapply H.
Qed.

(** X3. What [create_command] shows.  When [create] without [--apply]
    returns a list of commands, [create_command] without [--apply] shows
    the text of each, in their order, a line each and nothing else, and
    touches no file; with [--apply] it appends them to the log and shows one
    line, [Appended n changes to rsf_file], with [n] their number. *)
Theorem create_command_output (xsv_file rsf_file timestamp : string)
  (w w' : world) (cmds : list Command) :
  create xsv_file rsf_file timestamp false w = (Return (Commands cmds), w') ->
  create_command xsv_file rsf_file timestamp false w
  = (Return tt,
     World (fs w) (stdout w ++ map (fun c => Echoed (cmd_str c) None) cmds)
       (trace w') (clock w))
  /\ create_command xsv_file rsf_file timestamp true w
     = (Return tt,
        World (<[rsf_file := default "" (fs w !! rsf_file)
                             +:+ String.concat ""
                                   (map (fun cmd => cmd_str cmd +:+ nl) cmds)]>
                 (fs w))
          (stdout w
           ++ [Echoed (appended_msg (length cmds) rsf_file) (Some "green")])
          (trace w' ++ commit_events rsf_file) (clock w)).
Proof.
  intros Hdry.
  destruct (create_dry_run_inputs _ _ _ _ _ _ Hdry) as (r & p & Hin & Herr & ->).
  rewrite (create_accepts _ _ _ false _ _ _ Hin Herr) in Hdry.
  injection Hdry as <-. split.
  - unfold create_command, try_except, bind.
    rewrite (create_accepts _ _ _ false _ _ _ Hin Herr). cbn [echo_all].
    by rewrite for_each_echo.
  - unfold create_command, try_except, bind.
    rewrite (create_accepts _ _ _ true _ _ _ Hin Herr). cbn [trace].
    by rewrite <- app_assoc.
Qed.

(** X4. The commands read the result as what it is.  [create_command] takes
    [result['added_commands_number']] with [--apply] and iterates over
    [result] without: [create] returns a dict in the first case and a list
    in the second, and [apply] always a dict, so neither command ever raises
    the [TypeError] of a subscript on a list. *)
Theorem commands_never_misread_result (xsv_file rsf_file timestamp : string)
  (apply_flag : bool) (patch_file : string) (w : world) (msg : string) :
  fst (create_command xsv_file rsf_file timestamp apply_flag w)
  <> Raise (BuiltinTypeError msg)
  /\ fst (apply_command patch_file rsf_file w) <> Raise (BuiltinTypeError msg).
Proof.
  split.
  - unfold create_command, try_except, bind.
    destruct (create xsv_file rsf_file timestamp apply_flag w)
      as [[res|e|c] w'] eqn:Hrun.
    + pose proof (create_result_kind _ _ _ _ _ _ _ Hrun) as Hkind.
      destruct apply_flag.
      * destruct Hkind as [p ->]. discriminate.
      * destruct Hkind as [cmds ->]. cbn [echo_all].
        rewrite for_each_echo. discriminate.
    + pose proof (create_raises _ _ _ _ _ _ _ Hrun msg) as Hne.
      destruct e; [discriminate| |]; cbn [fst]; congruence.
    + discriminate.
  - unfold apply_command, try_except, bind.
    destruct (apply patch_file rsf_file w) as [[res|e|c] w'] eqn:Hrun.
    + destruct (apply_result_kind _ _ _ _ _ Hrun) as [p ->]. discriminate.
    + pose proof (apply_raises _ _ _ _ _ Hrun msg) as Hne.
      destruct e; [discriminate| |]; cbn [fst]; congruence.
    + discriminate.
Qed.

(** X5. A missing XSV file is not caught.  [xsv_file] is opened by [create]
    itself, without a check that it exists: when the register is built and
    ready and the file is missing, [create] raises [FileNotFoundError], which
    is no [RegistersException], so [create_command] lets it through: nothing
    is shown, no file is touched, and the process does not leave with
    status 1. *)
Theorem missing_rows_file_is_not_caught (xsv_file rsf_file timestamp : string)
  (apply_flag : bool) (w : world) (register : Register) :
  register_of rsf_file w = Some register ->
  check_readiness register = Ok tt ->
  fs w !! xsv_file = None ->
  let stopped :=
    World (fs w) (stdout w)
      (trace w ++ load_events rsf_file ++ [EvOpen xsv_file ModeRead])
      (clock w) in
  create xsv_file rsf_file timestamp apply_flag w
  = (Raise (FileNotFoundError xsv_file), stopped)
  /\ create_command xsv_file rsf_file timestamp apply_flag w
     = (Raise (FileNotFoundError xsv_file), stopped).
Proof.
  intros Hreg Hready Hmissing stopped. subst stopped.
  unfold register_of in Hreg. simplify_option_eq.
  repeat match goal with H : ok _ = Some _ |- _ => apply ok_Some in H end.
  assert (Hrun : create xsv_file rsf_file timestamp apply_flag w
                 = (Raise (FileNotFoundError xsv_file),
                    World (fs w) (stdout w)
                      (trace w ++ load_events rsf_file
                       ++ [EvOpen xsv_file ModeRead]) (clock w))).
  { run. by rewrite <- !app_assoc. }
  split; [exact Hrun|].
  unfold create_command, try_except, bind. by rewrite Hrun.
Qed.

(** X6. Every failure leaves the files alone.  A run of [create] or of
    [apply] that does not return a summary, whatever stops it (a missing
    file, an error of the engine, validation errors), leaves every file as
    it was; so does a run of [create_command] or of [apply_command] that
    does not return. *)
Theorem failure_leaves_files (xsv_file rsf_file timestamp : string)
  (apply_flag : bool) (patch_file : string) (w : world) :
  ((forall n,
       fst (create xsv_file rsf_file timestamp apply_flag w)
       <> Return (Summary n)) ->
   fs (snd (create xsv_file rsf_file timestamp apply_flag w)) = fs w)
  /\ ((forall n, fst (apply patch_file rsf_file w) <> Return (Summary n)) ->
      fs (snd (apply patch_file rsf_file w)) = fs w)
  /\ (fst (create_command xsv_file rsf_file timestamp apply_flag w)
      <> Return tt ->
      fs (snd (create_command xsv_file rsf_file timestamp apply_flag w))
      = fs w)
  /\ (fst (apply_command patch_file rsf_file w) <> Return tt ->
      fs (snd (apply_command patch_file rsf_file w)) = fs w).
Proof.
  split; [apply create_fails_clean|]. split; [apply apply_fails_clean|]. split.
  - pose proof (create_fails_clean xsv_file rsf_file timestamp apply_flag w)
      as Hclean.
    unfold create_command, try_except, bind.
    destruct (create xsv_file rsf_file timestamp apply_flag w)
      as [[res|e|c] w'] eqn:Hrun; cbn [fst snd] in *.
    + pose proof (create_result_kind _ _ _ _ _ _ _ Hrun) as Hkind.
      destruct apply_flag.
      * destruct Hkind as [p ->]. intros H. by destruct H.
      * destruct Hkind as [cmds ->]. cbn [echo_all]. rewrite for_each_echo.
        intros H. by destruct H.
    + intros _. destruct e; cbn [snd fs]; apply Hclean; discriminate.
    + intros _. apply Hclean. discriminate.
  - pose proof (apply_fails_clean patch_file rsf_file w) as Hclean.
    unfold apply_command, try_except, bind.
    destruct (apply patch_file rsf_file w) as [[res|e|c] w'] eqn:Hrun;
      cbn [fst snd] in *.
    + destruct (apply_result_kind _ _ _ _ _ Hrun) as [p ->].
      intros H. by destruct H.
    + intros _. destruct e; cbn [snd fs]; apply Hclean; discriminate.
    + intros _. apply Hclean. discriminate.
Qed.

(** X7. An exit means errors shown.  [create] and [apply] leave the process
    only with status 1, and only after [register.apply] has returned errors
    for a patch that was built: what the run adds to the terminal is then
    one red line per error, and it is all the run ever shows: a run that
    does not exit shows nothing. *)
Theorem exit_means_errors_shown (xsv_file rsf_file timestamp : string)
  (apply_flag : bool) (patch_file : string) (w : world) :
  (forall c w',
      create xsv_file rsf_file timestamp apply_flag w = (Exit c, w') ->
      c = 1%Z
      /\ exists r p e es,
           create_inputs xsv_file rsf_file timestamp w = Some (r, p)
           /\ errors_of r p = Some (e :: es)
           /\ w' = World (fs w) (stdout w ++ map red (e :: es))
                     (trace w ++ create_events xsv_file rsf_file ++ [EvExit 1])
                     (clock w))
  /\ (forall c w',
         apply patch_file rsf_file w = (Exit c, w') ->
         c = 1%Z
         /\ exists r p e es,
              apply_inputs patch_file rsf_file w = Some (r, p)
              /\ errors_of r p = Some (e :: es)
              /\ w' = World (fs w) (stdout w ++ map red (e :: es))
                        (trace w ++ apply_events patch_file rsf_file
                         ++ [EvExit 1]) (clock w))
  /\ ((forall c,
          fst (create xsv_file rsf_file timestamp apply_flag w) <> Exit c) ->
      stdout (snd (create xsv_file rsf_file timestamp apply_flag w))
      = stdout w)
  /\ ((forall c, fst (apply patch_file rsf_file w) <> Exit c) ->
      stdout (snd (apply patch_file rsf_file w)) = stdout w).
Proof.
  split; [|split; [|split]].
  - intros c w'.
    destruct apply_flag; cases; intros H; try discriminate H;
      injection H as <- <-; (split; [reflexivity|]);
      eexists _, _, _, _; unfold create_inputs, errors_of;
      repeat match goal with H : _ = _ |- _ => rewrite H; simpl end;
      rewrite <- ?app_assoc; repeat split; reflexivity.
  - intros c w'.
    cases; intros H; try discriminate H;
      injection H as <- <-; (split; [reflexivity|]);
      eexists _, _, _, _; unfold apply_inputs, errors_of;
      repeat match goal with H : _ = _ |- _ => rewrite H; simpl end;
      rewrite <- ?app_assoc; repeat split; reflexivity.
  - destruct apply_flag; cases; intros H; try reflexivity; exfalso;
      by eapply H.
  - cases; intros H; try reflexivity; exfalso; by eapply H.
Qed.

(** X8. Commits compose.  Two calls of [_apply] on the same log leave it
    with the text of the first patch and then the text of the second after
    what it held; the second call returns the number of its own commands, and
    the terminal is as it was. *)
Theorem commits_compose (p1 p2 : Patch) (rsf_file : string) (w : world) :
  let once := snd (_apply p1 rsf_file w) in
  let twice := snd (_apply p2 rsf_file once) in
  fs twice
  = <[rsf_file := default "" (fs w !! rsf_file)
                  +:+ patch_text p1 +:+ patch_text p2]> (fs w)
  /\ fst (_apply p2 rsf_file once)
     = Return (Summary (length (Patch_commands p2)))
  /\ stdout twice = stdout w.
Proof.
  intros once twice. subst twice once. rewrite !_apply_run.
  cbn [fst snd fs stdout]. unfold committed.
  rewrite lookup_insert_eq. cbn [from_option id].
  rewrite insert_insert_eq, TextFacts.append_assoc. by repeat split.
Qed.

(** X9. The commit of an empty patch.  [_apply] of a patch without commands
    returns the number 0; a log that exists is left as it was, byte for
    byte, and a log that is missing is created empty, as [open(rsf_file,
    "a")] does. *)
Theorem empty_patch_commit (p : Patch) (rsf_file : string) (w : world) :
  Patch_commands p = [] ->
  fst (_apply p rsf_file w) = Return (Summary 0)
  /\ (forall old, fs w !! rsf_file = Some old ->
                  fs (snd (_apply p rsf_file w)) = fs w)
  /\ (fs w !! rsf_file = None ->
      fs (snd (_apply p rsf_file w)) = <[rsf_file := ""]> (fs w)).
Proof.
  intros Hempty. rewrite _apply_run. cbn [fst snd fs].
  unfold committed, patch_text. rewrite Hempty. cbn [map String.concat length].
  split; [reflexivity|]. split.
  - intros old Hold. rewrite Hold. cbn [from_option id].
    rewrite TextFacts.append_nil_r. by apply insert_id.
  - intros Hnone. by rewrite Hnone.
Qed.

(** X10. The log only grows, and no other file is touched.  In every run of
    [create] and of [apply], whatever its outcome, every file other than
    [rsf_file] (the XSV file and the patch file among them) holds what it
    held, and a log that exists is still there with what it held as a prefix
    of what it holds. *)
Theorem log_only_grows (xsv_file rsf_file timestamp : string)
  (apply_flag : bool) (patch_file : string) (w : world) :
  let created := snd (create xsv_file rsf_file timestamp apply_flag w) in
  let applied := snd (apply patch_file rsf_file w) in
  (forall path, path <> rsf_file ->
                fs created !! path = fs w !! path
                /\ fs applied !! path = fs w !! path)
  /\ (forall old, fs w !! rsf_file = Some old ->
        (exists added, fs created !! rsf_file = Some (old +:+ added)
                       /\ String.prefix old (old +:+ added) = true)
        /\ (exists added, fs applied !! rsf_file = Some (old +:+ added)
                          /\ String.prefix old (old +:+ added) = true)).
Proof.
  intros created applied. subst created applied. split.
  - intros path Hne. split.
    + destruct apply_flag; cases; try reflexivity; by apply lookup_insert_ne.
    + cases; try reflexivity; by apply lookup_insert_ne.
  - intros old Hold. split.
    + revert Hold. destruct apply_flag; cases; intros Hold;
        try (exists ""; split;
             [rewrite TextFacts.append_nil_r; congruence
             | apply TextFacts.prefix_append]).
      eexists. rewrite lookup_insert_eq, Heqo. injection Hold as <-.
      split; [reflexivity | apply TextFacts.prefix_append].
    + revert Hold. cases; intros Hold;
        try (exists ""; split;
             [rewrite TextFacts.append_nil_r; congruence
             | apply TextFacts.prefix_append]).
      eexists. rewrite lookup_insert_eq, Heqo. injection Hold as <-.
      split; [reflexivity | apply TextFacts.prefix_append].
Qed.

(** X11. A run that commits nothing does not disturb the next.  After a run
    of [create] that did not return a summary (a dry run, a rejected patch,
    any failure), a run of [create] returns what it would have returned
    without the first and leaves the files it would have left; a run
    without [--apply] is always such a run. *)
Theorem uncommitted_run_does_not_disturb
  (xsv1 rsf1 ts1 : string) (flag1 : bool)
  (xsv_file rsf_file timestamp : string) (apply_flag : bool) (w : world) :
  let first := snd (create xsv1 rsf1 ts1 flag1 w) in
  ((forall n, fst (create xsv1 rsf1 ts1 flag1 w) <> Return (Summary n)) ->
   fst (create xsv_file rsf_file timestamp apply_flag first)
   = fst (create xsv_file rsf_file timestamp apply_flag w)
   /\ fs (snd (create xsv_file rsf_file timestamp apply_flag first))
      = fs (snd (create xsv_file rsf_file timestamp apply_flag w)))
  /\ (flag1 = false ->
      forall n, fst (create xsv1 rsf1 ts1 flag1 w) <> Return (Summary n)).
Proof.
  intros first. subst first. split.
  - intros Hnone. apply create_reads_files. by apply create_fails_clean.
  - intros -> n Hrun.
    destruct (create xsv1 rsf1 ts1 false w) as [o w'] eqn:Hcreate.
    cbn [fst] in Hrun. subst o.
    by destruct (create_result_kind _ _ _ _ _ _ _ Hcreate) as [cmds Hres].
Qed.

(** X12. What [apply_command] shows.  When the patch file gives a patch
    that [register.apply] accepts without errors, [apply_command] appends
    the patch's text to the log and shows one line, [Appended n changes to
    rsf_file], with [n] the number of the patch's commands. *)
Theorem apply_command_output (patch_file rsf_file : string) (w : world)
  (register : Register) (patch : Patch) :
  apply_inputs patch_file rsf_file w = Some (register, patch) ->
  errors_of register patch = Some [] ->
  apply_command patch_file rsf_file w
  = (Return tt,
     World (committed patch rsf_file (fs w))
       (stdout w
        ++ [Echoed (appended_msg (length (Patch_commands patch)) rsf_file)
              (Some "green")])
       (trace w ++ apply_events patch_file rsf_file ++ commit_events rsf_file)
       (clock w)).
Proof.
  intros Hin Herr. unfold apply_command, try_except, bind.
  by rewrite (apply_accepts _ _ _ _ _ Hin Herr).
Qed.

End PatchMore.

Lemma apply_flag_commits_the_dry_run_witness :
  fst (create (E := Demo.engine) "rows.csv" "register.rsf" Demo.stamp true
         Demo.start) = Return (Summary 4).
Proof.
  edestruct (apply_flag_commits_the_dry_run (E := Demo.engine) "rows.csv"
               "register.rsf" Demo.stamp Demo.start) as [_ Hwet].
  - rewrite (create_accepts (E := Demo.engine) _ _ _ false _ Demo.ready
               Demo.patch); [reflexivity | |]; vm_compute; reflexivity.
  - rewrite Hwet. reflexivity.
Defined.

Lemma apply_flag_is_idle_on_failure_witness :
  create (E := Demo.engine) "bad.csv" "register.rsf" Demo.stamp true Demo.start
  = create (E := Demo.engine) "bad.csv" "register.rsf" Demo.stamp false
      Demo.start.
Proof.
  apply apply_flag_is_idle_on_failure.
  intros cmds.
  erewrite (create_rejects (E := Demo.engine) _ _ _ false _ Demo.ready
              Demo.bad_patch); [discriminate | |]; vm_compute; reflexivity.
Defined.

Lemma create_command_output_witness :
  stdout (snd (create_command (E := Demo.engine) "rows.csv" "register.rsf"
                 Demo.stamp true Demo.start))
  = [Echoed "Appended 4 changes to register.rsf" (Some "green")].
Proof.
  edestruct (create_command_output (E := Demo.engine) "rows.csv"
               "register.rsf" Demo.stamp Demo.start) as [_ Hwet].
  - rewrite (create_accepts (E := Demo.engine) _ _ _ false _ Demo.ready
               Demo.patch); [reflexivity | |]; vm_compute; reflexivity.
  - rewrite Hwet. reflexivity.
Defined.

Lemma missing_rows_file_is_not_caught_witness :
  fst (create_command (E := Demo.engine) "nowhere.csv" "register.rsf"
         Demo.stamp true Demo.start)
  = Raise (FileNotFoundError "nowhere.csv").
Proof.
  destruct (missing_rows_file_is_not_caught (E := Demo.engine) "nowhere.csv"
              "register.rsf" Demo.stamp true Demo.start Demo.ready)
    as [_ Hcommand].
  - vm_compute. reflexivity.
  - reflexivity.
  - vm_compute. reflexivity.
  - rewrite Hcommand. reflexivity.
Defined.

Lemma failure_leaves_files_witness :
  fs (snd (create_command (E := Demo.engine) "bad.csv" "register.rsf"
             Demo.stamp true Demo.start)) = Demo.files.
Proof.
  destruct (failure_leaves_files (E := Demo.engine) "bad.csv" "register.rsf"
              Demo.stamp true "patch.rsf" Demo.start) as (_ & _ & Hcommand & _).
  apply Hcommand. vm_compute. discriminate.
Defined.

Lemma exit_means_errors_shown_witness :
  exists r p e es,
    create_inputs (E := Demo.engine) "bad.csv" "register.rsf" Demo.stamp
      Demo.start = Some (r, p)
    /\ errors_of (E := Demo.engine) r p = Some (e :: es).
Proof.
  destruct (exit_means_errors_shown (E := Demo.engine) "bad.csv" "register.rsf"
              Demo.stamp true "patch.rsf" Demo.start) as [Hcreate _].
  edestruct Hcreate as (_ & r & p & e & es & Hin & Herr & _).
  - erewrite (create_rejects (E := Demo.engine) _ _ _ true _ Demo.ready
                Demo.bad_patch); [reflexivity | |]; vm_compute; reflexivity.
  - by exists r, p, e, es.
Defined.

Lemma empty_patch_commit_witness :
  fs (snd (_apply (E := Demo.engine) DemoApply.empty_patch "register.rsf"
             Demo.start)) = Demo.files.
Proof.
  destruct (empty_patch_commit (E := Demo.engine) DemoApply.empty_patch
              "register.rsf" Demo.start) as (_ & Hkept & _).
  - reflexivity.
  - apply (Hkept Demo.ready_log). vm_compute. reflexivity.
Defined.

Lemma log_only_grows_witness :
  exists added,
    fs (snd (create (E := Demo.engine) "rows.csv" "register.rsf" Demo.stamp
               true Demo.start)) !! "register.rsf"
    = Some (Demo.ready_log +:+ added).
Proof.
  destruct (log_only_grows (E := Demo.engine) "rows.csv" "register.rsf"
              Demo.stamp true "patch.rsf" Demo.start) as [_ Hlog].
  destruct (Hlog Demo.ready_log) as [(added & Hadded & _) _].
  - vm_compute. reflexivity.
  - by exists added.
Defined.

Lemma uncommitted_run_does_not_disturb_witness :
  fst (create (E := Demo.engine) "rows.csv" "register.rsf" Demo.stamp false
         (snd (create (E := Demo.engine) "bad.csv" "register.rsf" Demo.stamp
                 true Demo.start)))
  = fst (create (E := Demo.engine) "rows.csv" "register.rsf" Demo.stamp false
           Demo.start).
Proof.
  destruct (uncommitted_run_does_not_disturb (E := Demo.engine) "bad.csv"
              "register.rsf" Demo.stamp true "rows.csv" "register.rsf"
              Demo.stamp false Demo.start) as [Hsame _].
  apply Hsame. intros n.
  erewrite (create_rejects (E := Demo.engine) _ _ _ true _ Demo.ready
              Demo.bad_patch); [discriminate | |]; vm_compute; reflexivity.
Defined.

Lemma apply_command_output_witness :
  apply_command (E := Demo.engine) "patch.rsf" "register.rsf" DemoApply.start
  = (Return tt,
     World (committed (E := Demo.engine) DemoApply.patch "register.rsf"
              DemoApply.files)
       [Echoed "Appended 4 changes to register.rsf" (Some "green")]
       [EvRsfRead "register.rsf"; EvRegister; EvCheckReadiness;
        EvRsfRead "patch.rsf"; EvPatch; EvRegisterApply;
        EvOpen "register.rsf" ModeAppend; EvWritelines "register.rsf"]
       Demo.midnight).
Proof.
  rewrite (apply_command_output (E := Demo.engine) "patch.rsf" "register.rsf"
             DemoApply.start Demo.ready DemoApply.patch).
  - reflexivity.
  - vm_compute. reflexivity.
  - vm_compute. reflexivity.
Defined.
